(** * useMMKVDevTools: the request/acknowledgement bridge between an MMKV
    store and the dev-tools plugin client.

    Shallow embedding of [packages/react-native-mmkv/src/useMMKVDevTools.ts].
    JavaScript values are an inductive type, IEEE doubles are the Standard
    Library's [spec_float], the body of the effect runs in a small
    state-and-exception monad over a [world] that holds the store, the
    client's listener table and the trace of observable actions. *)

From Stdlib Require Import ZArith DecimalString.
From Stdlib.Floats Require Import SpecFloat.
From stdpp Require Import gmap strings list fin_maps.

Set Warnings "-register-all".
Local Open Scope string_scope.
Local Open Scope list_scope.

(** ** JavaScript values *)

(** A JavaScript [number] is an IEEE-754 double. *)
Abbreviation number := spec_float.

Inductive JsValue : Type :=
| VUndefined
| VNull
| VBool (b : bool)
| VNumber (n : number)
| VString (s : string)
| VError (message : string) (stack : option string)
| VArray (items : list JsValue)
| VObject (fields : list (string * JsValue)).

(** [error instanceof Error] *)
Definition instanceof_Error (v : JsValue) : bool :=
  match v with VError _ _ => true | _ => false end.

(** [Number.isNaN(n)] *)
Definition Number_isNaN (n : number) : bool :=
  match n with S754_nan => true | _ => false end.

(** The integer a double denotes, when it denotes one. *)
Definition integer_value (n : number) : option Z :=
  match n with
  | S754_zero _ => Some 0%Z
  | S754_finite s m e =>
      let sign := if s then (-1)%Z else 1%Z in
      if (0 <=? e)%Z then Some (sign * (Z.pos m * 2 ^ e))%Z
      else if (Z.pos m mod 2 ^ (- e) =? 0)%Z
           then Some (sign * (Z.pos m / 2 ^ (- e)))%Z
           else None
  | _ => None
  end.

Definition MAX_SAFE_INTEGER : Z := 2 ^ 53 - 1.

Definition decimal (z : Z) : string := NilZero.string_of_int (Z.to_int z).

(** What the JavaScript engine supplies and the program only calls:
    [dtoa] is the shortest round-trip rendering [String] uses for a finite
    double that is not a safe integer, [captureStack] the [stack] the
    engine attaches to [new Error(message)]. *)
Record Engine : Type := {
  dtoa : number -> string;
  captureStack : string -> option string
}.

Section Values.
Variable engine : Engine.

(** [String(n)] for a number: Number::toString of ECMA-262, radix 10.
    Safe integers print as their decimal digits. *)
Definition Number_toString (n : number) : string :=
  match n with
  | S754_nan => "NaN"
  | S754_infinity false => "Infinity"
  | S754_infinity true => "-Infinity"
  | S754_zero _ => "0"
  | S754_finite _ _ _ =>
      match integer_value n with
      | Some z =>
          if (Z.abs z <=? MAX_SAFE_INTEGER)%Z then decimal z else dtoa engine n
      | None => dtoa engine n
      end
  end.

Definition Boolean_toString (b : bool) : string :=
  if b then "true" else "false".

(** [String(v)]: ToString of ECMA-262.  An array joins its elements with
    commas, [undefined] and [null] elements printing as nothing; an
    [Error] prints as Error.prototype.toString does; a plain object as
    Object.prototype.toString does. *)
Fixpoint String_ (v : JsValue) : string :=
  match v with
  | VUndefined => "undefined"
  | VNull => "null"
  | VBool b => Boolean_toString b
  | VNumber n => Number_toString n
  | VString s => s
  | VError message _ =>
      match message with
      | EmptyString => "Error"
      | _ => "Error: " +:+ message
      end
  | VArray items =>
      let element (x : JsValue) : string :=
        match x with
        | VUndefined | VNull => ""
        | _ => String_ x
        end in
      (fix join (l : list JsValue) : string :=
         match l with
         | [] => ""
         | [x] => element x
         | x :: rest => element x +:+ "," +:+ join rest
         end) items
  | VObject _ => "[object Object]"
  end.

(** [new Error(message)] *)
Definition new_Error (message : string) : JsValue :=
  VError message (captureStack engine message).
End Values.

(** [error.message] and [error.stack] of an [Error]. *)
Definition message_of (error : JsValue) : JsValue :=
  match error with VError message _ => VString message | _ => VUndefined end.

Definition stack_of (error : JsValue) : JsValue :=
  match error with
  | VError _ (Some stack) => VString stack
  | _ => VUndefined
  end.

(** [a ?? b] *)
Definition nullish (a b : JsValue) : JsValue :=
  match a with VUndefined | VNull => b | _ => a end.

(** How a call ends: it returns, or it throws. *)
Inductive completion (A : Type) : Type :=
| Normal (a : A)
| Throw (e : JsValue).
Arguments Normal {A}.
Arguments Throw {A}.

(** ** The store *)

(** The part of the [MMKV] interface the hook calls, over a store state
    [S].  [getAllKeys] may be nullish (the hook guards it with [?? []]);
    [getNumber] and [getBoolean] are called through [?.] and may be
    missing from the object.  [set] may refuse a write by throwing, as
    react-native-mmkv does for the empty key: it returns how the call
    ended and the store it left.  The reads and [remove] answer a key the
    store does not hold with [undefined] or [false] and are calls that
    return. *)
Record MMKV (S : Type) : Type := {
  getAllKeys : S -> option (list string);
  getString : S -> string -> option string;
  getNumber : option (S -> string -> option number);
  getBoolean : option (S -> string -> option bool);
  set : S -> string -> string -> completion unit * S;
  remove : S -> string -> S
}.
Arguments getAllKeys {S}.
Arguments getString {S}.
Arguments getNumber {S}.
Arguments getBoolean {S}.
Arguments set {S}.
Arguments remove {S}.

(** Modelled from the spec: the store itself is the react-native-mmkv
    instance, outside this package.  Spec section 3 describes an entry as a
    key mapped to exactly one of string, number or boolean, and section 9
    gives it three typed accessors that each answer present or absent.
    One thing is the library's and not the spec's: [set] refuses the empty
    key by throwing, and writes nothing then; [empty_key_error] is what it
    throws. *)
Inductive entry : Type :=
| EString (s : string)
| ENumber (n : number)
| EBoolean (b : bool).

Definition typed_getString (m : gmap string entry) (k : string) : option string :=
  match m !! k with Some (EString s) => Some s | _ => None end.

Definition typed_getNumber (m : gmap string entry) (k : string) : option number :=
  match m !! k with Some (ENumber n) => Some n | _ => None end.

Definition typed_getBoolean (m : gmap string entry) (k : string) : option bool :=
  match m !! k with Some (EBoolean b) => Some b | _ => None end.

Definition typed_set (empty_key_error : JsValue) (m : gmap string entry)
    (k v : string) : completion unit * gmap string entry :=
  if String.eqb k "" then (Throw empty_key_error, m)
  else (Normal tt, <[k := EString v]> m).

Definition typed_store (empty_key_error : JsValue) : MMKV (gmap string entry) := {|
  getAllKeys m := Some (map fst (map_to_list m));
  getString := typed_getString;
  getNumber := Some typed_getNumber;
  getBoolean := Some typed_getBoolean;
  set := typed_set empty_key_error;
  remove m k := delete k m
|}.

(** ** Messages, the client and the trace *)

(** [{ key?: string; value?: string }] *)
Record params : Type := { key : option string; value : option string }.

(** What the hook does to the outside: every call of
    [client.sendMessage], of the caller's [errorHandler] and of a
    subscription's [remove], with the exception the call ended in, if any. *)
Inductive event : Type :=
| SendMessage (method : string) (payload : JsValue) (thrown : option JsValue)
| ErrorHandler (err : JsValue)
| Remove (id : nat) (thrown : option JsValue).

(** The dev-tools plugin client is expo's; of its behaviour the hook only
    sees whether a call throws, here as a function of what happened so far. *)
Record DevToolsPluginClient : Type := {
  sendMessage_throws : list event -> string -> JsValue -> option JsValue;
  remove_throws : list event -> nat -> option JsValue
}.

(** ** The world and the monad of the effect *)

(** [store] is the MMKV instance's content, [live] the ids of the listeners
    the client currently holds, [next_id] the id the next listener gets. *)
Record world (S : Type) : Type := mkWorld {
  store : S;
  live : list nat;
  next_id : nat;
  trace : list event
}.
Arguments mkWorld {S}.
Arguments store {S}.
Arguments live {S}.
Arguments next_id {S}.
Arguments trace {S}.

Definition log {S} (e : event) (w : world S) : world S :=
  mkWorld (store w) (live w) (next_id w) (trace w ++ [e]).

Definition M (S A : Type) : Type := world S -> completion A * world S.

Definition ret {S A} (a : A) : M S A := fun w => (Normal a, w).

Definition throw {S A} (e : JsValue) : M S A := fun w => (Throw e, w).

Definition bind {S A B} (m : M S A) (k : A -> M S B) : M S B :=
  fun w =>
    match m w with
    | (Normal a, w1) => k a w1
    | (Throw e, w1) => (Throw e, w1)
    end.

Notation "x <- m ;; k" := (bind m (fun x => k))
  (at level 100, m at next level, right associativity).
Notation "m ;; k" := (bind m (fun _ => k))
  (at level 100, right associativity).

(** [try { m } catch (error) { h(error) }] *)
Definition try_catch {S A} (m : M S A) (h : JsValue -> M S A) : M S A :=
  fun w =>
    match m w with
    | (Normal a, w1) => (Normal a, w1)
    | (Throw e, w1) => h e w1
    end.

(** [try { m } finally { f }]: [f] runs either way; when [f] throws, its
    exception replaces the completion of [m]. *)
Definition try_finally {S A} (m : M S A) (f : M S unit) : M S A :=
  fun w =>
    match m w with
    | (r, w1) =>
        match f w1 with
        | (Normal _, w2) => (r, w2)
        | (Throw e, w2) => (Throw e, w2)
        end
    end.

(** [for (const x of l) { body(x) }] *)
Fixpoint for_of {S A} (l : list A) (body : A -> M S unit) : M S unit :=
  match l with
  | [] => ret tt
  | x :: rest => body x ;; for_of rest body
  end.

(** The object [addMessageListener] returns: it stands for one listener
    registered under one method name. *)
Record EventSubscription (S : Type) : Type := {
  sub_id : nat;
  sub_event : string;
  sub_listener : params -> M S unit
}.
Arguments sub_id {S}.
Arguments sub_event {S}.
Arguments sub_listener {S}.

(** [[key, v]], a row of the [getAll] result. *)
Definition row (key : string) (v : JsValue) : JsValue :=
  VArray [VString key; v].

(** [{ result: r }] *)
Definition ack_payload (r : JsValue) : JsValue := VObject [("result", r)].

Section Bridge.
Context {S : Type}.
Variable engine : Engine.
Variable storage : MMKV S.
(** [errorHandler?: (error: Error) => void]: [None] when the caller gave
    none; a given one returns ([None]) or throws ([Some e]). *)
Variable errorHandler : option (JsValue -> option JsValue).

(** Line 23: the [Error] the callback is given. *)
Definition as_Error (error : JsValue) : JsValue :=
  if instanceof_Error error then error
  else new_Error engine (String_ engine error).

(** Lines 21-27. *)
Definition handleError (error : JsValue) : M S unit :=
  let err := as_Error error in
  match errorHandler with
  | None => ret tt
  | Some f =>
      fun w =>
        (match f err with None => Normal tt | Some e => Throw e end,
         log (ErrorHandler err) w)
  end.

(** [storage.getNumber?.(key)], [storage.getBoolean?.(key)] *)
Definition optional_call {A} (method : option (S -> string -> option A))
    (st : S) (key : string) : option A :=
  match method with
  | Some f => f st key
  | None => None
  end.

(** The [getAll] listener, lines 55-70.  [typeof n === 'number'] is
    [n] being [Some _], and likewise for the boolean. *)
Definition getAll_entry (st : S) (key : string) : JsValue :=
  match getString storage st key with
  | Some s => row key (VString s)
  | None =>
      let past_number :=
        match optional_call (getBoolean storage) st key with
        | Some b => row key (VString (Boolean_toString b))
        | None => row key VUndefined
        end in
      match optional_call (getNumber storage) st key with
      | Some n =>
          if negb (Number_isNaN n)
          then row key (VString (Number_toString engine n))
          else past_number
      | None => past_number
      end
  end.

Definition getAll_listener (_ : params) : M S JsValue :=
  fun w =>
    let keys := match getAllKeys storage (store w) with
                | Some keys => keys
                | None => []
                end in
    (Normal (VArray (map (getAll_entry (store w)) keys)), w).

(** [storage.set(key, value)], line 77: the call may throw. *)
Definition storage_set (k v : string) : M S unit :=
  fun w =>
    (fst (set storage (store w) k v),
     mkWorld (snd (set storage (store w) k v)) (live w) (next_id w) (trace w)).

(** The [set] listener, lines 75-81. *)
Definition set_listener (p : params) : M S JsValue :=
  match key p, value p with
  | Some k, Some v => storage_set k v ;; ret (VBool true)
  | _, _ => ret (VBool false)
  end.

(** The [remove] listener, lines 86-92. *)
Definition remove_listener (p : params) : M S JsValue :=
  match key p with
  | Some k =>
      fun w =>
        (Normal (VBool true),
         mkWorld (remove storage (store w) k) (live w) (next_id w) (trace w))
  | None => ret (VBool false)
  end.

Section WithClient.
Variable client : DevToolsPluginClient.

(** [client.sendMessage(method, payload)] *)
Definition sendMessage (method : string) (payload : JsValue) : M S unit :=
  fun w =>
    match sendMessage_throws client (trace w) method payload with
    | None => (Normal tt, log (SendMessage method payload None) w)
    | Some e => (Throw e, log (SendMessage method payload (Some e)) w)
    end.

(** [client.addMessageListener(event, listener)] *)
Definition addMessageListener (event : string) (listener : params -> M S unit)
  : M S (EventSubscription S) :=
  fun w =>
    (Normal {| sub_id := next_id w; sub_event := event; sub_listener := listener |},
     mkWorld (store w) (live w ++ [next_id w]) (Datatypes.S (next_id w)) (trace w)).

(** [sub.remove()]: a call that throws leaves the listener in place. *)
Definition sub_remove (sub : EventSubscription S) : M S unit :=
  fun w =>
    match remove_throws client (trace w) (sub_id sub) with
    | None =>
        (Normal tt,
         log (Remove (sub_id sub) None)
           (mkWorld (store w)
              (filter (fun i => i <> sub_id sub) (live w))
              (next_id w) (trace w)))
    | Some e => (Throw e, log (Remove (sub_id sub) (Some e)) w)
    end.

(** The serializable error payload, line 42. *)
Definition error_payload (error : JsValue) : JsValue :=
  if instanceof_Error error
  then VObject [("message", message_of error); ("stack", stack_of error)]
  else VObject [("message", VString (String_ engine error))].

(** The catch block of the listener, lines 40-48. *)
Definition catch_block (error : JsValue) : M S unit :=
  let err := error_payload error in
  try_finally (sendMessage "error" err) (handleError error).

(** The listener [on] hands to the client, lines 36-49. *)
Definition message_listener (event : string)
    (listener : params -> M S JsValue) (p : params) : M S unit :=
  try_catch
    (result <- listener p ;;
     sendMessage ("ack:" +:+ event) (ack_payload (nullish result (VBool true))))
    catch_block.

(** Lines 32-49. *)
Definition on (event : string) (listener : params -> M S JsValue)
  : M S (EventSubscription S) :=
  addMessageListener event (message_listener event listener).

(** The body of the effect past the guard on [client], lines 51-93:
    the three registrations, in the order of [subscriptions]. *)
Definition subscribe : M S (list (EventSubscription S)) :=
  s1 <- on "getAll" getAll_listener ;;
  s2 <- on "set" set_listener ;;
  s3 <- on "remove" remove_listener ;;
  ret [s1; s2; s3].

(** The cleanup the effect returns, lines 95-103. *)
Definition cleanup (subscriptions : list (EventSubscription S)) : M S unit :=
  for_of subscriptions
    (fun sub => try_catch (sub_remove sub) (fun e => handleError e)).

(** The client delivering an inbound message: each listener it still
    holds under that name is called; a listener's rejected promise is
    nobody's to catch and does not stop the delivery. *)
Fixpoint deliver (subscriptions : list (EventSubscription S))
    (name : string) (p : params) (w : world S) : world S :=
  match subscriptions with
  | [] => w
  | sub :: rest =>
      if (String.eqb (sub_event sub) name && bool_decide (sub_id sub ∈ live w))%bool
      then deliver rest name p (snd (sub_listener sub p w))
      else deliver rest name p w
  end.
End WithClient.

(** The effect, lines 29-104: nothing without a client, else the
    subscriptions whose cleanup it returns. *)
Definition useEffect (client : option DevToolsPluginClient)
  : M S (option (list (EventSubscription S))) :=
  match client with
  | None => ret None
  | Some c => subs <- subscribe c ;; ret (Some subs)
  end.
End Bridge.

(** ** The contracts of the specification, in its words *)

(** [Number.isFinite(n)]: the spec's "finite number". *)
Definition Number_isFinite (n : number) : bool :=
  match n with
  | S754_zero _ | S754_finite _ _ _ => true
  | _ => false
  end.

(** The method names of the spec's wire contract (section 6). *)
Definition spec_methods : list string := ["list"; "write"; "delete"].

(** The ids of the subscriptions released in a stretch of the trace. *)
Fixpoint released (evs : list event) : list nat :=
  match evs with
  | [] => []
  | Remove id _ :: rest => id :: released rest
  | _ :: rest => released rest
  end.

(** The error callback is handed an [Error]. *)
Definition given_an_Error (ev : event) : Prop :=
  match ev with
  | ErrorHandler err => instanceof_Error err = true
  | _ => True
  end.

(** The [Error] a failure is to reach the error callback as: the failure
    itself when it is an [Error], else [new Error(String(failure))]. *)
Definition Error_of (engine : Engine) (failure : JsValue) : JsValue :=
  match failure with
  | VError _ _ => failure
  | _ => VError (String_ engine failure) (captureStack engine (String_ engine failure))
  end.

(** A stretch of the teardown's trace in which every release that threw
    is followed at once by the call of the error callback with what the
    release threw, as an [Error], and the callback is called for nothing
    else. *)
Fixpoint teardown_reports (engine : Engine) (evs : list event) : Prop :=
  match evs with
  | [] => True
  | Remove _ None :: rest => teardown_reports engine rest
  | Remove _ (Some e) :: ErrorHandler err :: rest =>
      err = Error_of engine e /\ teardown_reports engine rest
  | _ => False
  end.

Fixpoint first_success (probes : list (option string)) : option string :=
  match probes with
  | [] => None
  | Some s :: _ => Some s
  | None :: rest => first_success rest
  end.

Section Contracts.
Context {S : Type}.
Variable engine : Engine.
Variable storage : MMKV S.
Variable errorHandler : option (JsValue -> option JsValue).
Variable client : DevToolsPluginClient.

(** What reaches the error callback for one failure: one call when the
    caller gave a callback. *)
Definition reported (error : JsValue) : list event :=
  match errorHandler with
  | Some _ => [ErrorHandler (as_Error engine error)]
  | None => []
  end.

(** Section 4.2: one terminal action per message, the acknowledgement
    when the handler resolves, the error payload followed by the callback
    when it throws. *)
Definition response_contract (event : string)
    (listener : params -> M S JsValue) (p : params) (w : world S) : Prop :=
  let after := snd (message_listener engine errorHandler client event listener p w) in
  match listener p w with
  | (Normal result, w1) =>
      exists thrown,
        trace after =
          trace w1 ++ [SendMessage ("ack:" +:+ event)
                         (ack_payload (nullish result (VBool true))) thrown]
  | (Throw error, w1) =>
      exists thrown,
        trace after =
          trace w1 ++ SendMessage "error" (error_payload engine error) thrown
                   :: reported error
  end.

(** Section 4.1, [list]: the three probes of one key, the numeric one
    taking the numbers [accept] lets through. *)
Definition probe_string (st : S) (key : string) : option string :=
  getString storage st key.

Definition probe_number (accept : number -> bool) (st : S) (key : string)
  : option string :=
  match optional_call (getNumber storage) st key with
  | Some n => if accept n then Some (Number_toString engine n) else None
  | None => None
  end.

Definition probe_boolean (st : S) (key : string) : option string :=
  match optional_call (getBoolean storage) st key with
  | Some b => Some (Boolean_toString b)
  | None => None
  end.

Definition listed_value (accept : number -> bool) (st : S) (key : string)
  : JsValue :=
  match first_success
          [probe_string st key; probe_number accept st key; probe_boolean st key]
  with
  | Some s => VString s
  | None => VUndefined
  end.

Definition list_result (accept : number -> bool) (st : S) : JsValue :=
  VArray (map (fun key => row key (listed_value accept st key))
            (match getAllKeys storage st with
             | Some keys => keys
             | None => []
             end)).


(** Section 4.3: deactivation releases every recorded subscription once. *)
Definition teardown_contract (subscriptions : list (EventSubscription S))
    (w : world S) : Prop :=
  exists evs,
    trace (snd (cleanup engine errorHandler client subscriptions w)) = trace w ++ evs
    /\ released evs = map sub_id subscriptions.

(** Every release that threw is followed at once by its report to the
    error callback. *)
Fixpoint failures_reported (evs : list event) : Prop :=
  match evs with
  | [] => True
  | Remove _ (Some e) :: rest =>
      (exists rest', rest = reported e ++ rest') /\ failures_reported rest
  | _ :: rest => failures_reported rest
  end.
End Contracts.

(** ** Engines, clients and callbacks of the examples *)

(** No example renders a number outside the safe integers, nor reads a
    captured stack. *)
Definition test_engine : Engine :=
  {| dtoa := fun _ => ""; captureStack := fun _ => None |}.

Definition reliable_client : DevToolsPluginClient :=
  {| sendMessage_throws := fun _ _ _ => None;
     remove_throws := fun _ _ => None |}.

(** A client that cannot send on the acknowledgement channels. *)
Definition ack_failing_client : DevToolsPluginClient :=
  {| sendMessage_throws := fun _ method _ =>
       if String.prefix "ack:" method
       then Some (VError "Unable to send message" None)
       else None;
     remove_throws := fun _ _ => None |}.

(** A client that cannot send on the error channel, and whose first
    subscription throws when removed. *)
Definition faulty_client : DevToolsPluginClient :=
  {| sendMessage_throws := fun _ method _ =>
       if String.eqb method "error" then Some (VString "socket closed") else None;
     remove_throws := fun _ id =>
       match id with
       | O => Some (VString "already removed")
       | _ => None
       end |}.

Definition quiet_errorHandler : JsValue -> option JsValue := fun _ => None.

(** A callback that rethrows what it is given. *)
Definition rethrowing_errorHandler : JsValue -> option JsValue := fun err => Some err.

Definition failing_listener {S} (e : JsValue) (_ : params) : M S JsValue := throw e.

Definition initial_world {S} (st : S) : world S := mkWorld st [] 0 [].

(** The double 42, as binary64 holds it. *)
Definition forty_two : number := S754_finite false 5910974510923776 (-47).

Definition no_params : params := {| key := None; value := None |}.

Definition write_a_1 : params := {| key := Some "a"; value := Some "1" |}.

Definition overwrite_answer : params := {| key := Some "answer"; value := Some "1" |}.

Definition delete_a : params := {| key := Some "a"; value := None |}.

Definition empty_store : gmap string entry := ∅.

(** The [Error] the store of the examples throws for the empty key; the
    library's own wording is not reproduced. *)
Definition empty_key_refused : JsValue := VError "empty key" None.

Definition test_store : MMKV (gmap string entry) := typed_store empty_key_refused.

Definition write_empty_key : params := {| key := Some ""; value := Some "1" |}.

Definition typed_values : gmap string entry :=
  <["answer" := ENumber forty_two]> (<["flag" := EBoolean true]> ∅).

(** [storage.set("ratio", 1 / 0)] leaves this behind. *)
Definition infinite_ratio : gmap string entry :=
  <["ratio" := ENumber (S754_infinity false)]> ∅.

(** The subscriptions an activation over the empty store records, and the
    world it leaves. *)
Definition activation (errorHandler : option (JsValue -> option JsValue))
    (client : DevToolsPluginClient)
  : list (EventSubscription (gmap string entry)) * world (gmap string entry) :=
  match subscribe test_engine test_store errorHandler client
          (initial_world empty_store) with
  | (Normal subscriptions, w) => (subscriptions, w)
  | (Throw _, w) => ([], w)
  end.

(** ** The listener table, the callback's outcome, typed rows *)

(** The client hands out ids in increasing order: every listener it holds
    has an id below the next one. *)
Definition wf_world {S} (w : world S) : Prop :=
  Forall (fun i => i < next_id w) (live w).

(** How the call of the error callback for one failure ends: [Some e]
    when a given callback throws [e]. *)
Definition callback_throws (engine : Engine)
    (errorHandler : option (JsValue -> option JsValue)) (error : JsValue)
  : option JsValue :=
  match errorHandler with
  | Some f => f (as_Error engine error)
  | None => None
  end.

(** The value the [getAll] rows show for an entry of the typed store. *)
Definition render (engine : Engine) (x : entry) : JsValue :=
  match x with
  | EString s => VString s
  | ENumber n =>
      if Number_isNaN n then VUndefined else VString (Number_toString engine n)
  | EBoolean b => VString (Boolean_toString b)
  end.

(** A store object that has neither [getNumber] nor [getBoolean]: the
    two optional calls of the [getAll] listener find no method. *)
Definition strings_only_store : MMKV (gmap string string) := {|
  getAllKeys m := Some (map fst (map_to_list m));
  getString m k := m !! k;
  getNumber := None;
  getBoolean := None;
  set m k v := (Normal tt, <[k := v]> m);
  remove m k := delete k m
|}.

(** ** The store the hook works on, line 19 *)

(** An MMKV instance, by identity: one the caller passed as [storage], or
    the one the [n]-th call of [createMMKV] returned. *)
Inductive instance : Type :=
| Supplied (id : nat)
| Created (n : nat).

Global Instance instance_eq_dec : EqDecision instance.
Proof. solve_decision. Defined.

(** React's [useMemo] keeps, per hook call, the dependencies and the value
    of its last computation, and computes again on a render whose
    dependencies differ ([Object.is]) from the kept ones.  [created]
    counts the calls of [createMMKV]. *)
Record memo : Type := {
  cell : option (option instance * instance);
  created : nat
}.

Definition first_render : memo := {| cell := None; created := 0 |}.

(** [() => storageProp ?? createMMKV()], leaving the cell filled. *)
Definition storage_factory (storageProp : option instance) (h : memo)
  : instance * memo :=
  match storageProp with
  | Some s => (s, {| cell := Some (storageProp, s); created := created h |})
  | None =>
      (Created (created h),
       {| cell := Some (storageProp, Created (created h));
          created := Datatypes.S (created h) |})
  end.

(** [useMemo(() => storageProp ?? createMMKV(), [storageProp])] *)
Definition useMemo_storage (storageProp : option instance) (h : memo)
  : instance * memo :=
  match cell h with
  | Some (deps, v) =>
      if decide (deps = storageProp) then (v, h)
      else storage_factory storageProp h
  | None => storage_factory storageProp h
  end.

(** The renders of one mounted hook, one per [storage] prop in turn; the
    stores the renders work on, and the cell after the last. *)
Fixpoint renders (props : list (option instance)) (h : memo)
  : list instance * memo :=
  match props with
  | [] => ([], h)
  | storageProp :: rest =>
      let (s, h1) := useMemo_storage storageProp h in
      let (ss, h2) := renders rest h1 in
      (s :: ss, h2)
  end.

(** What [useMemo] keeps agrees with its dependency: a kept value computed
    for a supplied [storage] is that [storage]. *)
Definition cell_ok (h : memo) : Prop :=
  match cell h with
  | Some (Some s, v) => v = s
  | _ => True
  end.

(** * Properties *)

Section Facts.
Context {S : Type}.
Variable engine : Engine.
Variable storage : MMKV S.
Variable errorHandler : option (JsValue -> option JsValue).
Variable client : DevToolsPluginClient.

(** ** What one call leaves in the trace *)

Lemma sendMessage_run (method : string) (payload : JsValue) (w : world S) :
  sendMessage client method payload w =
    (match sendMessage_throws client (trace w) method payload with
     | None => Normal tt
     | Some e => Throw e
     end,
     log (SendMessage method payload
            (sendMessage_throws client (trace w) method payload)) w).
Proof.
  unfold sendMessage.
  destruct (sendMessage_throws client (trace w) method payload); reflexivity.
Qed.

Lemma handleError_trace (error : JsValue) (w : world S) :
  trace (snd (handleError engine errorHandler error w)) =
    trace w ++ reported engine errorHandler error.
Proof.
  unfold handleError, reported.
  destruct errorHandler as [f|]; simpl.
  - reflexivity.
  - now rewrite app_nil_r.
Qed.

Lemma handleError_frame (error : JsValue) (w : world S) :
  let w' := snd (handleError engine errorHandler error w) in
  store w' = store w /\ live w' = live w /\ next_id w' = next_id w.
Proof.
  unfold handleError.
  destruct errorHandler as [f|]; simpl; auto.
Qed.

Lemma catch_block_trace (error : JsValue) (w : world S) :
  trace (snd (catch_block engine errorHandler client error w)) =
    trace w ++ SendMessage "error" (error_payload engine error)
                 (sendMessage_throws client (trace w) "error"
                    (error_payload engine error))
            :: reported engine errorHandler error.
Proof.
  unfold catch_block, try_finally.
  rewrite sendMessage_run.
  pose proof (handleError_trace error
    (log (SendMessage "error" (error_payload engine error)
            (sendMessage_throws client (trace w) "error"
               (error_payload engine error))) w)) as Ht.
  destruct (handleError engine errorHandler error _) as [[u|e] w2];
    simpl in *; rewrite Ht; now rewrite <- app_assoc.
Qed.

Lemma message_listener_rejected (event : string)
    (listener : params -> M S JsValue) (p : params) (w w1 : world S)
    (error : JsValue) :
  listener p w = (Throw error, w1) ->
  message_listener engine errorHandler client event listener p w =
    catch_block engine errorHandler client error w1.
Proof.
  intros Hl. unfold message_listener, try_catch, bind. now rewrite Hl.
Qed.

Lemma message_listener_resolved (event : string)
    (listener : params -> M S JsValue) (p : params) (w w1 : world S)
    (result : JsValue) :
  listener p w = (Normal result, w1) ->
  message_listener engine errorHandler client event listener p w =
    let payload := ack_payload (nullish result (VBool true)) in
    match sendMessage_throws client (trace w1) ("ack:" +:+ event) payload with
    | None => (Normal tt, log (SendMessage ("ack:" +:+ event) payload None) w1)
    | Some e =>
        catch_block engine errorHandler client e
          (log (SendMessage ("ack:" +:+ event) payload (Some e)) w1)
    end.
Proof.
  intros Hl. unfold message_listener, try_catch, bind.
  rewrite Hl, sendMessage_run. simpl.
  destruct (sendMessage_throws client (trace w1) _ _); reflexivity.
Qed.

(** ** The request dispatcher *)

(** C1, as the code has it: when the handler resolves, one
    acknowledgement is sent on [ack:<method>] with the handler's result,
    and when that send returns nothing else happens.  When the handler
    throws or rejects, and also when the acknowledgement send itself
    throws, one error payload is sent on [error], and the error callback
    is called once, after that send, whether the send threw or not. *)
Theorem message_listener_terminal_action (event : string)
    (listener : params -> M S JsValue) (p : params) (w : world S) :
  match listener p w with
  | (Normal result, w1) =>
      match sendMessage_throws client (trace w1) ("ack:" +:+ event)
              (ack_payload (nullish result (VBool true))) with
      | None =>
          message_listener engine errorHandler client event listener p w =
            (Normal tt,
             log (SendMessage ("ack:" +:+ event)
                    (ack_payload (nullish result (VBool true))) None) w1)
      | Some e =>
          exists thrown,
            trace (snd (message_listener engine errorHandler client
                          event listener p w)) =
              trace w1 ++
                SendMessage ("ack:" +:+ event)
                  (ack_payload (nullish result (VBool true))) (Some e)
                :: SendMessage "error" (error_payload engine e) thrown
                :: reported engine errorHandler e
      end
  | (Throw error, w1) =>
      trace (snd (message_listener engine errorHandler client
                    event listener p w)) =
        trace w1 ++
          SendMessage "error" (error_payload engine error)
            (sendMessage_throws client (trace w1) "error"
               (error_payload engine error))
          :: reported engine errorHandler error
  end.
Proof.
  destruct (listener p w) as [[result|error] w1] eqn:Hl.
  - rewrite (message_listener_resolved _ _ _ _ _ _ Hl). simpl.
    destruct (sendMessage_throws client (trace w1) _ _) as [e|] eqn:Hs.
    + eexists. rewrite catch_block_trace. simpl.
      rewrite <- app_assoc. reflexivity.
    + reflexivity.
  - rewrite (message_listener_rejected _ _ _ _ _ _ Hl).
    apply catch_block_trace.
Qed.

(** C9: the acknowledgement carries [true] in place of an [undefined] or
    [null] result and every other result, [false] included, as it is. *)
Theorem ack_defaults_only_nullish (event : string)
    (listener : params -> M S JsValue) (p : params) (w w1 : world S)
    (result : JsValue) :
  listener p w = (Normal result, w1) ->
  exists sent thrown rest,
    trace (snd (message_listener engine errorHandler client event listener p w)) =
      trace w1 ++ SendMessage ("ack:" +:+ event) (VObject [("result", sent)]) thrown
               :: rest
    /\ (thrown = None -> rest = [])
    /\ (result = VUndefined \/ result = VNull -> sent = VBool true)
    /\ (result <> VUndefined -> result <> VNull -> sent = result).
Proof.
  intros Hl.
  exists (nullish result (VBool true)).
  rewrite (message_listener_resolved _ _ _ _ _ _ Hl). simpl.
  fold (ack_payload (nullish result (VBool true))).
  destruct (sendMessage_throws client (trace w1) _ _) as [e|] eqn:Hs.
  - exists (Some e). eexists. rewrite catch_block_trace. simpl.
    rewrite <- app_assoc. simpl. split; [reflexivity|].
    split; [discriminate|].
    split.
    + intros [-> | ->]; reflexivity.
    + intros H1 H2. destruct result; try reflexivity; contradiction.
  - exists None, []. simpl. split; [reflexivity|].
    split; [reflexivity|].
    split.
    + intros [-> | ->]; reflexivity.
    + intros H1 H2. destruct result; try reflexivity; contradiction.
Qed.

(** C6: the payload sent on [error] for a failure the handler raised is
    [{ message, stack }] of an [Error] and [{ message: String(failure) }],
    with no [stack] field, of anything else. *)
Theorem error_payload_of_failure (event : string)
    (listener : params -> M S JsValue) (p : params) (w w1 : world S)
    (failure : JsValue) :
  listener p w = (Throw failure, w1) ->
  exists payload thrown rest,
    trace (snd (message_listener engine errorHandler client event listener p w)) =
      trace w1 ++ SendMessage "error" payload thrown :: rest
    /\ payload =
         match failure with
         | VError message stack =>
             VObject [("message", VString message);
                      ("stack", match stack with
                                | Some s => VString s
                                | None => VUndefined
                                end)]
         | _ => VObject [("message", VString (String_ engine failure))]
         end.
Proof.
  intros Hl.
  rewrite (message_listener_rejected _ _ _ _ _ _ Hl), catch_block_trace.
  do 3 eexists. split; [reflexivity|].
  destruct failure; reflexivity.
Qed.

(** ** The error callback *)

Lemma as_Error_instance (error : JsValue) :
  instanceof_Error (as_Error engine error) = true.
Proof.
  unfold as_Error. destruct (instanceof_Error error) eqn:He; [exact He|reflexivity].
Qed.

Lemma reported_given_an_Error (error : JsValue) :
  Forall given_an_Error (reported engine errorHandler error).
Proof.
  unfold reported. destruct errorHandler; constructor.
  - apply as_Error_instance.
  - constructor.
Qed.

(** ** Teardown *)

Lemma sub_remove_run (sub : EventSubscription S) (w : world S) :
  trace (snd (sub_remove client sub w)) =
    trace w ++ [Remove (sub_id sub) (remove_throws client (trace w) (sub_id sub))]
  /\ fst (sub_remove client sub w) =
       match remove_throws client (trace w) (sub_id sub) with
       | None => Normal tt
       | Some e => Throw e
       end.
Proof.
  unfold sub_remove.
  destruct (remove_throws client (trace w) (sub_id sub)); simpl; auto.
Qed.

(** One turn of the teardown loop, lines 97-101. *)
Lemma release_trace (sub : EventSubscription S) (w : world S) :
  trace (snd (try_catch (sub_remove client sub)
                (fun e => handleError engine errorHandler e) w)) =
    trace w ++ Remove (sub_id sub) (remove_throws client (trace w) (sub_id sub))
            :: match remove_throws client (trace w) (sub_id sub) with
               | Some e => reported engine errorHandler e
               | None => []
               end.
Proof.
  unfold try_catch.
  destruct (sub_remove_run sub w) as [Ht Hr].
  destruct (sub_remove client sub w) as [[u|e] w1]; simpl in *;
    destruct (remove_throws client (trace w) (sub_id sub)) as [e'|];
    try discriminate.
  - exact Ht.
  - injection Hr as ->. rewrite handleError_trace, Ht.
    now rewrite <- app_assoc.
Qed.

Lemma release_returns (sub : EventSubscription S) (w : world S) :
  (forall f, errorHandler = Some f -> forall err, f err = None) ->
  fst (try_catch (sub_remove client sub)
         (fun e => handleError engine errorHandler e) w) = Normal tt.
Proof.
  intros Hquiet. unfold try_catch.
  destruct (sub_remove_run sub w) as [_ Hr].
  destruct (sub_remove client sub w) as [[[]|e] w1]; simpl in *.
  - reflexivity.
  - unfold handleError. destruct errorHandler as [f|]; simpl.
    + now rewrite (Hquiet f eq_refl).
    + reflexivity.
Qed.

Lemma released_reported (error : JsValue) (evs : list event) :
  released (reported engine errorHandler error ++ evs) = released evs.
Proof. unfold reported. destruct errorHandler; reflexivity. Qed.

Lemma failures_reported_skip (error : JsValue) (evs : list event) :
  failures_reported engine errorHandler evs ->
  failures_reported engine errorHandler (reported engine errorHandler error ++ evs).
Proof. unfold reported. destruct errorHandler; simpl; auto. Qed.

Lemma cleanup_cons (sub : EventSubscription S)
    (rest : list (EventSubscription S)) (w : world S) :
  cleanup engine errorHandler client (sub :: rest) w =
    match try_catch (sub_remove client sub)
            (fun e => handleError engine errorHandler e) w with
    | (Normal _, w1) => cleanup engine errorHandler client rest w1
    | (Throw e, w1) => (Throw e, w1)
    end.
Proof. reflexivity. Qed.

(** C7, as the code has it: with an error callback that returns (or
    none), deactivation runs to its end, releases every recorded
    subscription once, in order, whether or not a release throws, and
    hands every release failure to the callback. *)
Theorem cleanup_releases_every_subscription
    (subscriptions : list (EventSubscription S)) (w : world S) :
  (forall f, errorHandler = Some f -> forall err, f err = None) ->
  exists w' evs,
    cleanup engine errorHandler client subscriptions w = (Normal tt, w')
    /\ trace w' = trace w ++ evs
    /\ released evs = map sub_id subscriptions
    /\ failures_reported engine errorHandler evs.
Proof.
  intros Hquiet. revert w.
  induction subscriptions as [|sub rest IH]; intros w.
  - exists w, []. simpl. rewrite app_nil_r. auto.
  - rewrite cleanup_cons.
    pose proof (release_trace sub w) as Ht.
    pose proof (release_returns sub w Hquiet) as Hr.
    destruct (try_catch (sub_remove client sub) _ w) as [[[]|e] w1];
      simpl in Ht, Hr; [|discriminate].
    destruct (IH w1) as (w' & evs & Hc & Htr & Hrel & Hrep).
    exists w'. eexists. split; [exact Hc|].
    split; [rewrite Htr, Ht, <- app_assoc; reflexivity|].
    destruct (remove_throws client (trace w) (sub_id sub)) as [e|]; simpl.
    + rewrite released_reported, Hrel. split; [reflexivity|].
      split; [eauto|]. now apply failures_reported_skip.
    + rewrite Hrel. auto.
Qed.

Lemma cleanup_given_an_Error
    (subscriptions : list (EventSubscription S)) (w : world S) :
  exists evs,
    trace (snd (cleanup engine errorHandler client subscriptions w)) =
      trace w ++ evs
    /\ Forall given_an_Error evs.
Proof.
  revert w. induction subscriptions as [|sub rest IH]; intros w.
  - exists []. simpl. rewrite app_nil_r. auto.
  - rewrite cleanup_cons.
    pose proof (release_trace sub w) as Ht.
    assert (Hev : Forall given_an_Error
              (Remove (sub_id sub) (remove_throws client (trace w) (sub_id sub))
               :: match remove_throws client (trace w) (sub_id sub) with
                  | Some e => reported engine errorHandler e
                  | None => []
                  end)).
    { constructor; [exact I|].
      destruct (remove_throws client (trace w) (sub_id sub));
        [apply reported_given_an_Error|constructor]. }
    destruct (try_catch (sub_remove client sub) _ w) as [[u|e] w1];
      simpl in Ht.
    + destruct (IH w1) as (evs & Htr & Hall).
      eexists. split; [rewrite Htr, Ht, <- app_assoc; reflexivity|].
      apply Forall_app; auto.
    + eexists. split; [exact Ht|exact Hev].
Qed.

Lemma message_listener_given_an_Error (event : string)
    (listener : params -> M S JsValue) (p : params) (w : world S) :
  exists evs,
    trace (snd (message_listener engine errorHandler client event listener p w)) =
      trace (snd (listener p w)) ++ evs
    /\ Forall given_an_Error evs.
Proof.
  destruct (listener p w) as [[result|error] w1] eqn:Hl; simpl.
  - rewrite (message_listener_resolved _ _ _ _ _ _ Hl). simpl.
    destruct (sendMessage_throws client (trace w1) _ _) as [e|].
    + rewrite catch_block_trace. simpl. rewrite <- app_assoc.
      eexists. split; [reflexivity|].
      repeat (constructor; [exact I|]). apply reported_given_an_Error.
    + eexists. split; [reflexivity|]. repeat constructor.
  - rewrite (message_listener_rejected _ _ _ _ _ _ Hl), catch_block_trace.
    eexists. split; [reflexivity|].
    constructor; [exact I|]. apply reported_given_an_Error.
Qed.

Lemma Error_of_as_Error (failure : JsValue) :
  as_Error engine failure = Error_of engine failure.
Proof. destruct failure; reflexivity. Qed.

Lemma cleanup_teardown_reports (f : JsValue -> option JsValue)
    (subscriptions : list (EventSubscription S)) (w : world S) :
  errorHandler = Some f ->
  exists evs,
    trace (snd (cleanup engine errorHandler client subscriptions w)) =
      trace w ++ evs
    /\ teardown_reports engine evs.
Proof.
  intros Hf. revert w. induction subscriptions as [|sub rest IH]; intros w.
  - exists []. simpl. rewrite app_nil_r. auto.
  - rewrite cleanup_cons.
    assert (Hcall : forall e,
               reported engine errorHandler e = [ErrorHandler (Error_of engine e)])
      by (intros e; unfold reported; now rewrite Hf, Error_of_as_Error).
    pose proof (release_trace sub w) as Ht.
    destruct (remove_throws client (trace w) (sub_id sub)) as [thrown|];
      try rewrite Hcall in Ht;
      destruct (try_catch (sub_remove client sub) _ w) as [[u|e] w1];
      simpl in Ht.
    + destruct (IH w1) as (evs & Htr & Hrep).
      eexists. split; [rewrite Htr, Ht, <- app_assoc; reflexivity|].
      simpl. auto.
    + eexists. split; [exact Ht|]. simpl. auto.
    + destruct (IH w1) as (evs & Htr & Hrep).
      eexists. split; [rewrite Htr, Ht, <- app_assoc; reflexivity|].
      exact Hrep.
    + eexists. split; [exact Ht|]. exact I.
Qed.

(** C10: a given error callback is only ever handed an [Error], and the
    [Error] it is handed is the failure itself when that is an [Error] and
    [new Error(String(failure))] when it is not: for the failure a handler
    raised, for the failure of an acknowledgement send, and for what a
    subscription's [remove] threw in the teardown alike. *)
Theorem errorHandler_given_an_Error (f : JsValue -> option JsValue) :
  errorHandler = Some f ->
  (forall (failure : JsValue) (w : world S),
      exists err,
        trace (snd (handleError engine errorHandler failure w)) =
          trace w ++ [ErrorHandler err]
        /\ instanceof_Error err = true
        /\ (instanceof_Error failure = true -> err = failure)
        /\ (instanceof_Error failure = false ->
            err = VError (String_ engine failure)
                    (captureStack engine (String_ engine failure))))
  /\ (forall event listener p (w : world S),
        exists evs,
          trace (snd (message_listener engine errorHandler client
                        event listener p w)) =
            trace (snd (listener p w)) ++ evs
          /\ Forall given_an_Error evs)
  /\ (forall subscriptions (w : world S),
        exists evs,
          trace (snd (cleanup engine errorHandler client subscriptions w)) =
            trace w ++ evs
          /\ Forall given_an_Error evs)
  /\ (forall event listener p (w : world S),
        match listener p w with
        | (Normal result, w1) =>
            match sendMessage_throws client (trace w1) ("ack:" +:+ event)
                    (ack_payload (nullish result (VBool true))) with
            | None =>
                trace (snd (message_listener engine errorHandler client
                              event listener p w)) =
                  trace w1 ++
                    [SendMessage ("ack:" +:+ event)
                       (ack_payload (nullish result (VBool true))) None]
            | Some e =>
                exists thrown,
                  trace (snd (message_listener engine errorHandler client
                                event listener p w)) =
                    trace w1 ++
                      [SendMessage ("ack:" +:+ event)
                         (ack_payload (nullish result (VBool true))) (Some e);
                       SendMessage "error" (error_payload engine e) thrown;
                       ErrorHandler (Error_of engine e)]
            end
        | (Throw failure, w1) =>
            exists thrown,
              trace (snd (message_listener engine errorHandler client
                            event listener p w)) =
                trace w1 ++
                  [SendMessage "error" (error_payload engine failure) thrown;
                   ErrorHandler (Error_of engine failure)]
        end)
  /\ (forall subscriptions (w : world S),
        exists evs,
          trace (snd (cleanup engine errorHandler client subscriptions w)) =
            trace w ++ evs
          /\ teardown_reports engine evs).
Proof.
  intros Hf. split; [|split; [|split; [|split]]].
  - intros failure w. exists (as_Error engine failure).
    rewrite handleError_trace. unfold reported. rewrite Hf.
    split; [reflexivity|]. split; [apply as_Error_instance|].
    unfold as_Error. split; intros ->; reflexivity.
  - apply message_listener_given_an_Error.
  - apply cleanup_given_an_Error.
  - intros event listener p w.
    destruct (listener p w) as [[result|failure] w1] eqn:Hl.
    + rewrite (message_listener_resolved _ _ _ _ _ _ Hl). simpl.
      destruct (sendMessage_throws client (trace w1) _ _) as [e|].
      * eexists. rewrite catch_block_trace. simpl. rewrite <- app_assoc.
        unfold reported. rewrite Hf, Error_of_as_Error. reflexivity.
      * reflexivity.
    + rewrite (message_listener_rejected _ _ _ _ _ _ Hl), catch_block_trace.
      eexists. unfold reported. rewrite Hf, Error_of_as_Error. reflexivity.
  - intros subscriptions w. now apply (cleanup_teardown_reports f).
Qed.
(** ** The method registry *)

Lemma subscribe_run (w0 : world S) :
  subscribe engine storage errorHandler client w0 =
    (Normal
       [ {| sub_id := next_id w0; sub_event := "getAll";
            sub_listener := message_listener engine errorHandler client "getAll"
                              (getAll_listener engine storage) |};
         {| sub_id := Datatypes.S (next_id w0); sub_event := "set";
            sub_listener := message_listener engine errorHandler client "set"
                              (set_listener storage) |};
         {| sub_id := Datatypes.S (Datatypes.S (next_id w0)); sub_event := "remove";
            sub_listener := message_listener engine errorHandler client "remove"
                              (remove_listener storage) |} ],
     mkWorld (store w0)
       (live w0 ++ [next_id w0; Datatypes.S (next_id w0);
                    Datatypes.S (Datatypes.S (next_id w0))])
       (Datatypes.S (Datatypes.S (Datatypes.S (next_id w0)))) (trace w0)).
Proof.
  unfold subscribe, on, addMessageListener, bind, ret. simpl.
  now rewrite <- !app_assoc.
Qed.

(** C8, as the code has it: the names the hook registers are [getAll],
    [set] and [remove]; a message under any other name reaches no
    listener, so no handler runs and nothing is sent. *)
Theorem unregistered_method_ignored (w0 w1 : world S)
    (subscriptions : list (EventSubscription S))
    (name : string) (p : params) (w : world S) :
  subscribe engine storage errorHandler client w0 = (Normal subscriptions, w1) ->
  name ∉ ["getAll"; "set"; "remove"] ->
  map sub_event subscriptions = ["getAll"; "set"; "remove"]
  /\ deliver subscriptions name p w = w.
Proof.
  rewrite subscribe_run. intros [= <- <-] Hname.
  split; [reflexivity|].
  apply not_elem_of_cons in Hname as [H1 Hname].
  apply not_elem_of_cons in Hname as [H2 Hname].
  apply not_elem_of_cons in Hname as [H3 _].
  apply not_eq_sym, String.eqb_neq in H1, H2, H3.
  cbn [deliver sub_event]. now rewrite H1, H2, H3.
Qed.

(** A message under a registered name runs that name's listener, and it
    alone, once. *)
Lemma deliver_registered (w0 w1 : world S)
    (subscriptions : list (EventSubscription S)) (p : params) (w : world S) :
  subscribe engine storage errorHandler client w0 = (Normal subscriptions, w1) ->
  Forall (fun sub => sub_id sub ∈ live w) subscriptions ->
  deliver subscriptions "getAll" p w =
    snd (message_listener engine errorHandler client "getAll"
           (getAll_listener engine storage) p w)
  /\ deliver subscriptions "set" p w =
       snd (message_listener engine errorHandler client "set"
              (set_listener storage) p w)
  /\ deliver subscriptions "remove" p w =
       snd (message_listener engine errorHandler client "remove"
              (remove_listener storage) p w).
Proof.
  rewrite subscribe_run. intros [= <- <-] Hlive.
  apply Forall_cons in Hlive as [L1 Hlive].
  apply Forall_cons in Hlive as [L2 Hlive].
  apply Forall_cons in Hlive as [L3 _].
  simpl in L1, L2, L3. simpl.
  rewrite !bool_decide_eq_true_2 by assumption.
  auto.
Qed.

(** ** The handlers *)

Lemma getAll_entry_listed (st : S) (key : string) :
  getAll_entry engine storage st key =
    row key (listed_value engine storage (fun n => negb (Number_isNaN n)) st key).
Proof.
  unfold getAll_entry, listed_value, probe_string, probe_number, probe_boolean.
  destruct (getString storage st key) as [s|]; simpl; [reflexivity|].
  destruct (optional_call (getNumber storage) st key) as [n|]; simpl.
  - destruct (Number_isNaN n); simpl; [|reflexivity].
    destruct (optional_call (getBoolean storage) st key); reflexivity.
  - destruct (optional_call (getBoolean storage) st key); reflexivity.
Qed.

(** C4, as the code has it: the handler resolves, touching nothing, with
    one row per key in the order of the key list (none when the list is
    absent); a key's value is the first of its string, number and
    boolean probes to succeed, the number probe succeeding exactly on a
    number that is not [NaN]; a key no probe reads is listed with
    [undefined]. *)
Theorem getAll_listener_lists (p : params) (w : world S) :
  getAll_listener engine storage p w =
    (Normal (list_result engine storage (fun n => negb (Number_isNaN n)) (store w)),
     w)
  /\ (forall key,
        probe_string storage (store w) key = None ->
        probe_number engine storage (fun n => negb (Number_isNaN n)) (store w) key
          = None ->
        probe_boolean storage (store w) key = None ->
        getAll_entry engine storage (store w) key = row key VUndefined).
Proof.
  split.
  - unfold getAll_listener, list_result. do 3 f_equal.
    apply map_ext. intros key. apply getAll_entry_listed.
  - intros key Hs Hn Hb. rewrite getAll_entry_listed.
    unfold listed_value. simpl. now rewrite Hs, Hn, Hb.
Qed.

Lemma set_listener_run (p : params) (w : world S) :
  set_listener storage p w =
    match key p, value p with
    | Some k, Some v =>
        (match fst (set storage (store w) k v) with
         | Normal _ => Normal (VBool true)
         | Throw e => Throw e
         end,
         mkWorld (snd (set storage (store w) k v)) (live w) (next_id w) (trace w))
    | _, _ => (Normal (VBool false), w)
    end.
Proof.
  unfold set_listener, storage_set, bind, ret.
  destruct (key p) as [k|], (value p) as [v|]; try reflexivity.
  now destruct (set storage (store w) k v) as [[u|e] st].
Qed.

Lemma remove_listener_run (p : params) (w : world S) :
  remove_listener storage p w =
    match key p with
    | Some k =>
        (Normal (VBool true),
         mkWorld (remove storage (store w) k) (live w) (next_id w) (trace w))
    | None => (Normal (VBool false), w)
    end.
Proof.
  unfold remove_listener. destruct (key p); reflexivity.
Qed.
End Facts.

(** ** The handlers over the store of the spec *)


(** C3: without a key the store stays as it is and the handler resolves
    with [false]; with one, the key is removed and the handler resolves
    with [true], also when the store never held the key, which it then
    still does not hold. *)
Theorem delete_contract {S : Type} (storage : MMKV S) (p : params) (w : world S) :
  (key p = None -> remove_listener storage p w = (Normal (VBool false), w))
  /\ (forall k, key p = Some k ->
        remove_listener storage p w =
          (Normal (VBool true),
           mkWorld (remove storage (store w) k) (live w) (next_id w) (trace w)))
  /\ (forall empty_key_error (m : world (gmap string entry)) k,
        key p = Some k ->
        store (snd (remove_listener (typed_store empty_key_error) p m)) !! k = None
        /\ (forall k', k' <> k ->
              store (snd (remove_listener (typed_store empty_key_error) p m)) !! k'
                = store m !! k')
        /\ (store m !! k = None ->
            remove_listener (typed_store empty_key_error) p m =
              (Normal (VBool true), m))).
Proof.
  rewrite remove_listener_run. split; [|split].
  - intros ->. reflexivity.
  - intros k ->. reflexivity.
  - intros err m k Hk. rewrite remove_listener_run, Hk. simpl.
    split; [apply lookup_delete_eq|].
    split; [intros k' Hne; now apply lookup_delete_ne|].
    intros Hnone. rewrite (delete_id _ _ Hnone). now destruct m.
Qed.

Lemma typed_store_lists_key (empty_key_error : JsValue)
    (m : gmap string entry) (k : string) (x : entry) :
  m !! k = Some x ->
  exists keys, getAllKeys (typed_store empty_key_error) m = Some keys /\ k ∈ keys.
Proof.
  intros Hk. eexists. split; [reflexivity|].
  apply list_elem_of_In, in_map_iff. exists (k, x).
  split; [reflexivity|].
  now apply list_elem_of_In, elem_of_map_to_list.
Qed.

Lemma Number_toString_42 (engine : Engine) (n : number) :
  integer_value n = Some 42%Z ->
  Number_isNaN n = false /\ Number_toString engine n = "42".
Proof.
  intros Hn. destruct n as [s|s| |s m e]; try discriminate.
  split; [reflexivity|].
  unfold Number_toString. rewrite Hn. reflexivity.
Qed.

(** C5: a key that holds the number 42 is listed with the string ["42"],
    and a key that holds the boolean [true] with the string ["true"]. *)
Theorem list_flattens_typed_values (engine : Engine)
    (empty_key_error : JsValue) (p : params)
    (w : world (gmap string entry)) (k : string) :
  exists rows,
    getAll_listener engine (typed_store empty_key_error) p w =
      (Normal (VArray rows), w)
    /\ (forall n, store w !! k = Some (ENumber n) ->
                  integer_value n = Some 42%Z ->
                  row k (VString "42") ∈ rows)
    /\ (store w !! k = Some (EBoolean true) -> row k (VString "true") ∈ rows).
Proof.
  eexists. split; [reflexivity|].
  split.
  - intros n Hk Hn.
    destruct (typed_store_lists_key empty_key_error _ _ _ Hk)
      as (keys & Hkeys & Hin).
    simpl in Hkeys. injection Hkeys as <-.
    apply list_elem_of_In, in_map_iff. exists k.
    split; [|now apply list_elem_of_In].
    destruct (Number_toString_42 engine n Hn) as [Hnan Hstr].
    unfold getAll_entry. simpl. unfold typed_getString, typed_getNumber.
    rewrite Hk, Hnan. simpl. now rewrite Hstr.
  - intros Hk.
    destruct (typed_store_lists_key empty_key_error _ _ _ Hk)
      as (keys & Hkeys & Hin).
    simpl in Hkeys. injection Hkeys as <-.
    apply list_elem_of_In, in_map_iff. exists k.
    split; [|now apply list_elem_of_In].
    unfold getAll_entry. simpl.
    unfold typed_getString, typed_getNumber, typed_getBoolean.
    now rewrite Hk.
Qed.

(** * Instances *)

(** ** Where the specification and the code part *)

(** C1 as the spec words it: the [set] handler resolves, the
    acknowledgement send throws, and the catch block then sends an error
    payload and calls the error callback as well. *)
Lemma ack_send_failure_breaks_response_contract :
  ~ response_contract test_engine (Some quiet_errorHandler) ack_failing_client
      "set" (set_listener test_store) write_a_1 (initial_world empty_store).
Proof.
  unfold response_contract. vm_compute.
  intros [thrown H]. discriminate H.
Qed.


(** C4 as the spec words it: a key that holds [Infinity] is listed as
    ["Infinity"], though [Infinity] is no finite number. *)
Lemma list_reports_infinity :
  getAll_listener test_engine test_store no_params (initial_world infinite_ratio) =
    (Normal (VArray [row "ratio" (VString "Infinity")]), initial_world infinite_ratio)
  /\ getAll_listener test_engine test_store no_params (initial_world infinite_ratio) <>
       (Normal (list_result test_engine test_store Number_isFinite infinite_ratio),
        initial_world infinite_ratio).
Proof.
  split; [reflexivity|].
  intros H. vm_compute in H. discriminate H.
Qed.

(** C7 as the spec words it: the first release throws, the error callback
    throws in turn, and the two subscriptions left are never released. *)
Lemma teardown_stops_when_callback_throws :
  ~ teardown_contract test_engine (Some rethrowing_errorHandler) faulty_client
      (fst (activation (Some rethrowing_errorHandler) faulty_client))
      (snd (activation (Some rethrowing_errorHandler) faulty_client)).
Proof.
  intros (evs & Htr & Hrel).
  vm_compute in Htr. subst evs.
  vm_compute in Hrel. discriminate Hrel.
Qed.

(** C8 as the spec words it: [getAll] is none of [list], [write] and
    [delete], and a message under it is handled and acknowledged. *)
Lemma getAll_is_dispatched :
  ("getAll" ∉ spec_methods)
  /\ trace (deliver (fst (activation None reliable_client)) "getAll" no_params
             (snd (activation None reliable_client))) =
       [SendMessage "ack:getAll" (ack_payload (VArray [])) None].
Proof.
  split; [|reflexivity].
  unfold spec_methods. rewrite !not_elem_of_cons.
  repeat split; try discriminate. apply not_elem_of_nil.
Qed.

(** ** The theorems at work *)

(** [set] without parameters resolves with [false], and [false] is what
    the acknowledgement carries. *)
Lemma ack_defaults_only_nullish_witness :
  set_listener test_store no_params (initial_world empty_store) =
    (Normal (VBool false), initial_world empty_store)
  /\ exists thrown rest,
       trace (snd (message_listener test_engine (Some quiet_errorHandler)
                     reliable_client "set" (set_listener test_store)
                     no_params (initial_world empty_store))) =
         SendMessage "ack:set" (VObject [("result", VBool false)]) thrown :: rest.
Proof.
  split; [reflexivity|].
  destruct (@ack_defaults_only_nullish _ test_engine (Some quiet_errorHandler)
              reliable_client "set" (set_listener test_store) no_params
              (initial_world empty_store) (initial_world empty_store)
              (VBool false) eq_refl)
    as (sent & thrown & rest & Htr & _ & _ & Hsent).
  exists thrown, rest.
  rewrite Htr, Hsent by discriminate. reflexivity.
Defined.

(** A handler that throws the string ["boom"]: the payload has a message
    and no stack. *)
Lemma error_payload_of_failure_witness :
  failing_listener (VString "boom") write_a_1 (initial_world empty_store) =
    (Throw (VString "boom"), initial_world empty_store)
  /\ exists thrown rest,
       trace (snd (message_listener test_engine (Some quiet_errorHandler)
                     faulty_client "set" (failing_listener (VString "boom"))
                     write_a_1 (initial_world empty_store))) =
         SendMessage "error" (VObject [("message", VString "boom")]) thrown :: rest.
Proof.
  split; [reflexivity|].
  destruct (@error_payload_of_failure _ test_engine (Some quiet_errorHandler)
              faulty_client "set" (failing_listener (VString "boom")) write_a_1
              (initial_world empty_store) (initial_world empty_store)
              (VString "boom") eq_refl)
    as (payload & thrown & rest & Htr & Hpayload).
  exists thrown, rest. rewrite Htr, Hpayload. reflexivity.
Defined.

(** A teardown whose first release throws, under a callback that returns:
    all three subscriptions are released. *)
Lemma cleanup_releases_every_subscription_witness :
  (forall f, Some quiet_errorHandler = Some f -> forall err, f err = None)
  /\ exists w' evs,
       cleanup test_engine (Some quiet_errorHandler) faulty_client
         (fst (activation (Some quiet_errorHandler) faulty_client))
         (snd (activation (Some quiet_errorHandler) faulty_client)) = (Normal tt, w')
       /\ trace w' = evs
       /\ released evs = [0; 1; 2]
       /\ failures_reported test_engine (Some quiet_errorHandler) evs.
Proof.
  assert (Hquiet : forall f, Some quiet_errorHandler = Some f ->
                             forall err, f err = None).
  { intros f [= <-] err. reflexivity. }
  split; [exact Hquiet|].
  exact (@cleanup_releases_every_subscription _ test_engine
           (Some quiet_errorHandler) faulty_client
           (fst (activation (Some quiet_errorHandler) faulty_client))
           (snd (activation (Some quiet_errorHandler) faulty_client)) Hquiet).
Defined.

(** A message named [list], the spec's name for [getAll], reaches no
    listener of the hook. *)
Lemma unregistered_method_ignored_witness :
  subscribe test_engine test_store None reliable_client (initial_world empty_store) =
    (Normal (fst (activation None reliable_client)),
     snd (activation None reliable_client))
  /\ ("list" ∉ ["getAll"; "set"; "remove"])
  /\ map sub_event (fst (activation None reliable_client)) = ["getAll"; "set"; "remove"]
  /\ deliver (fst (activation None reliable_client)) "list" no_params
       (snd (activation None reliable_client)) =
     snd (activation None reliable_client).
Proof.
  assert (Hname : "list" ∉ ["getAll"; "set"; "remove"]).
  { rewrite !not_elem_of_cons. repeat split; try discriminate.
    apply not_elem_of_nil. }
  split; [reflexivity|]. split; [exact Hname|].
  exact (@unregistered_method_ignored _ test_engine test_store None
           reliable_client (initial_world empty_store)
           (snd (activation None reliable_client))
           (fst (activation None reliable_client)) "list" no_params
           (snd (activation None reliable_client)) eq_refl Hname).
Defined.

(** The string ["boom"] reaches the callback as an [Error] whose message
    is ["boom"], from [handleError] and from a handler that throws it; a
    teardown whose first release throws reports that failure so. *)
Lemma errorHandler_given_an_Error_witness :
  Some quiet_errorHandler = Some quiet_errorHandler
  /\ (exists err,
        trace (snd (handleError test_engine (Some quiet_errorHandler)
                      (VString "boom") (initial_world empty_store))) =
          [ErrorHandler err]
        /\ instanceof_Error err = true
        /\ err = VError "boom" None)
  /\ (exists thrown,
        trace (snd (message_listener test_engine (Some quiet_errorHandler)
                      faulty_client "set" (failing_listener (VString "boom"))
                      write_a_1 (initial_world empty_store))) =
          [SendMessage "error" (VObject [("message", VString "boom")]) thrown;
           ErrorHandler (VError "boom" None)])
  /\ (exists evs,
        trace (snd (cleanup test_engine (Some quiet_errorHandler) faulty_client
                      (fst (activation (Some quiet_errorHandler) faulty_client))
                      (snd (activation (Some quiet_errorHandler) faulty_client)))) =
          evs
        /\ teardown_reports test_engine evs).
Proof.
  split; [reflexivity|].
  destruct (@errorHandler_given_an_Error (gmap string entry) test_engine
              (Some quiet_errorHandler) faulty_client quiet_errorHandler eq_refl)
    as (Hwrap & _ & _ & Hrequest & Hteardown).
  split; [|split].
  - destruct (Hwrap (VString "boom") (initial_world empty_store))
      as (err & Htr & Hinst & _ & Herr).
    exists err. split; [exact Htr|]. split; [exact Hinst|].
    apply Herr. reflexivity.
  - exact (Hrequest "set" (failing_listener (VString "boom")) write_a_1
             (initial_world empty_store)).
  - exact (Hteardown (fst (activation (Some quiet_errorHandler) faulty_client))
             (snd (activation (Some quiet_errorHandler) faulty_client))).
Defined.

(** The teardown of that witness, event by event. *)
Example teardown_failure_is_reported_wrapped :
  trace (snd (cleanup test_engine (Some quiet_errorHandler) faulty_client
                (fst (activation (Some quiet_errorHandler) faulty_client))
                (snd (activation (Some quiet_errorHandler) faulty_client)))) =
    [Remove 0 (Some (VString "already removed"));
     ErrorHandler (VError "already removed" None);
     Remove 1 None; Remove 2 None].
Proof. reflexivity. Qed.

(** The typed values of the examples, each listed as its string. *)
Lemma list_flattens_typed_values_witness :
  typed_values !! "answer" = Some (ENumber forty_two)
  /\ integer_value forty_two = Some 42%Z
  /\ typed_values !! "flag" = Some (EBoolean true)
  /\ exists rows,
       getAll_listener test_engine test_store no_params (initial_world typed_values) =
         (Normal (VArray rows), initial_world typed_values)
       /\ row "answer" (VString "42") ∈ rows
       /\ row "flag" (VString "true") ∈ rows.
Proof.
  assert (Ha : typed_values !! "answer" = Some (ENumber forty_two)) by reflexivity.
  assert (Hf : typed_values !! "flag" = Some (EBoolean true)) by reflexivity.
  split; [exact Ha|]. split; [reflexivity|]. split; [exact Hf|].
  destruct (list_flattens_typed_values test_engine empty_key_refused no_params
              (initial_world typed_values) "answer") as (rows & Hrun & Hnum & _).
  destruct (list_flattens_typed_values test_engine empty_key_refused no_params
              (initial_world typed_values) "flag") as (rows' & Hrun' & _ & Hbool).
  exists rows. split; [exact Hrun|]. split.
  - exact (Hnum forty_two Ha eq_refl).
  - rewrite Hrun in Hrun'. injection Hrun' as <-. exact (Hbool Hf).
Defined.


(** Deleting a key the empty store never held resolves with [true] and
    leaves the store empty. *)
Lemma delete_contract_witness :
  key delete_a = Some "a"
  /\ empty_store !! "a" = None
  /\ remove_listener test_store delete_a (initial_world empty_store) =
       (Normal (VBool true), initial_world empty_store).
Proof.
  split; [reflexivity|]. split; [reflexivity|].
  destruct (delete_contract test_store delete_a (initial_world empty_store))
    as (_ & _ & Hstore).
  exact (proj2 (proj2 (Hstore empty_key_refused (initial_world empty_store) "a"
                         eq_refl)) eq_refl).
Defined.

(** ** Two runs *)

(** The handler throws, the send on [error] throws too, and the callback
    is called all the same, after the send. *)
Example callback_runs_after_failed_error_send :
  trace (snd (message_listener test_engine (Some quiet_errorHandler) faulty_client
                "set" (failing_listener (VString "boom")) write_a_1
                (initial_world empty_store))) =
    [SendMessage "error" (VObject [("message", VString "boom")])
       (Some (VString "socket closed"));
     ErrorHandler (VError "boom" None)].
Proof. reflexivity. Qed.

(** Activate, write [a], list, delete [a], list: four acknowledgements. *)
Example write_list_delete_list :
  let subscriptions := fst (activation None reliable_client) in
  let w0 := snd (activation None reliable_client) in
  let w1 := deliver subscriptions "set" write_a_1 w0 in
  let w2 := deliver subscriptions "getAll" no_params w1 in
  let w3 := deliver subscriptions "remove" delete_a w2 in
  let w4 := deliver subscriptions "getAll" no_params w3 in
  trace w4 =
    [SendMessage "ack:set" (ack_payload (VBool true)) None;
     SendMessage "ack:getAll"
       (ack_payload (VArray [row "a" (VString "1")])) None;
     SendMessage "ack:remove" (ack_payload (VBool true)) None;
     SendMessage "ack:getAll" (ack_payload (VArray [])) None].
Proof. vm_compute. reflexivity. Qed.

(** * More of the hook *)

Section Dispatcher.
Context {S : Type}.
Variable engine : Engine.
Variable storage : MMKV S.
Variable errorHandler : option (JsValue -> option JsValue).
Variable client : DevToolsPluginClient.

Lemma handleError_run (error : JsValue) (w : world S) :
  handleError engine errorHandler error w =
    (match callback_throws engine errorHandler error with
     | Some e => Throw e
     | None => Normal tt
     end,
     mkWorld (store w) (live w) (next_id w)
       (trace w ++ reported engine errorHandler error)).
Proof.
  unfold handleError, callback_throws, reported.
  destruct errorHandler as [f|].
  - reflexivity.
  - unfold ret. rewrite app_nil_r. now destruct w.
Qed.

Lemma catch_block_run (error : JsValue) (w : world S) :
  catch_block engine errorHandler client error w =
    (match callback_throws engine errorHandler error with
     | Some e3 => Throw e3
     | None =>
         match sendMessage_throws client (trace w) "error"
                 (error_payload engine error) with
         | Some e2 => Throw e2
         | None => Normal tt
         end
     end,
     mkWorld (store w) (live w) (next_id w)
       (trace w ++ SendMessage "error" (error_payload engine error)
                     (sendMessage_throws client (trace w) "error"
                        (error_payload engine error))
                :: reported engine errorHandler error)).
Proof.
  unfold catch_block, try_finally.
  rewrite sendMessage_run, handleError_run. simpl.
  rewrite <- app_assoc. simpl.
  destruct (callback_throws engine errorHandler error); [reflexivity|].
  destruct (sendMessage_throws client (trace w) _ _); reflexivity.
Qed.

(** X1: whatever the handler does, the listener around it adds to the
    trace only: the store, the client's listeners and the next id stay as
    the handler left them. *)
Theorem message_listener_frame (event : string)
    (listener : params -> M S JsValue) (p : params) (w : world S) :
  store (snd (message_listener engine errorHandler client event listener p w)) =
    store (snd (listener p w))
  /\ live (snd (message_listener engine errorHandler client event listener p w)) =
       live (snd (listener p w))
  /\ next_id (snd (message_listener engine errorHandler client event listener p w)) =
       next_id (snd (listener p w)).
Proof.
  destruct (listener p w) as [[result|error] w1] eqn:Hl.
  - rewrite (message_listener_resolved _ _ _ _ _ _ _ _ _ Hl). simpl.
    destruct (sendMessage_throws client (trace w1) _ _).
    + rewrite catch_block_run. simpl. auto.
    + simpl. auto.
  - rewrite (message_listener_rejected _ _ _ _ _ _ _ _ _ Hl), catch_block_run.
    simpl. auto.
Qed.

(** X2: over a client whose sends do not throw and with a callback that
    returns (or none), the listener's promise never rejects, whatever the
    handler does. *)
Theorem message_listener_never_rejects (event : string)
    (listener : params -> M S JsValue) (p : params) (w : world S) :
  (forall tr method payload, sendMessage_throws client tr method payload = None) ->
  (forall f, errorHandler = Some f -> forall err, f err = None) ->
  fst (message_listener engine errorHandler client event listener p w) = Normal tt.
Proof.
  intros Hsend Hquiet.
  assert (Hcb : forall e, callback_throws engine errorHandler e = None).
  { intros e. unfold callback_throws. destruct errorHandler as [f|]; [|reflexivity].
    now apply Hquiet. }
  destruct (listener p w) as [[result|error] w1] eqn:Hl.
  - rewrite (message_listener_resolved _ _ _ _ _ _ _ _ _ Hl). simpl.
    now rewrite Hsend.
  - rewrite (message_listener_rejected _ _ _ _ _ _ _ _ _ Hl), catch_block_run.
    simpl. now rewrite Hcb, Hsend.
Qed.

(** X3: how the listener's promise settles when the handler throws: it
    rejects with what the error callback throws when that throws, else
    with what the send on [error] throws when that throws, and resolves
    otherwise; the send's exception is not caught, the [finally] lets it
    through. *)
Theorem failed_request_completion (event : string)
    (listener : params -> M S JsValue) (p : params) (w w1 : world S)
    (failure : JsValue) :
  listener p w = (Throw failure, w1) ->
  fst (message_listener engine errorHandler client event listener p w) =
    match callback_throws engine errorHandler failure with
    | Some e3 => Throw e3
    | None =>
        match sendMessage_throws client (trace w1) "error"
                (error_payload engine failure) with
        | Some e2 => Throw e2
        | None => Normal tt
        end
    end.
Proof.
  intros Hl.
  now rewrite (message_listener_rejected _ _ _ _ _ _ _ _ _ Hl), catch_block_run.
Qed.
End Dispatcher.

Section Lifecycle.
Context {S : Type}.
Variable engine : Engine.
Variable storage : MMKV S.
Variable errorHandler : option (JsValue -> option JsValue).
Variable client : DevToolsPluginClient.

(** X4: whatever throws, the teardown releases a prefix of the recorded
    subscriptions, each once and in recording order, and all of them when
    it runs to its end. *)
Theorem cleanup_releases_a_prefix
    (subscriptions : list (EventSubscription S)) (w : world S) :
  exists evs rest,
    trace (snd (cleanup engine errorHandler client subscriptions w)) = trace w ++ evs
    /\ map sub_id subscriptions = released evs ++ rest
    /\ (fst (cleanup engine errorHandler client subscriptions w) = Normal tt ->
        rest = []).
Proof.
  revert w. induction subscriptions as [|sub subs IH]; intros w.
  - exists [], []. simpl. rewrite app_nil_r. auto.
  - rewrite cleanup_cons.
    pose proof (release_trace engine errorHandler client sub w) as Ht.
    destruct (try_catch (sub_remove client sub) _ w) as [[[]|e] w1]; simpl in Ht.
    + destruct (IH w1) as (evs & rest & Htr & Hids & Hend).
      eexists. exists rest.
      split; [rewrite Htr, Ht, <- app_assoc; reflexivity|].
      split; [|exact Hend].
      simpl. f_equal.
      destruct (remove_throws client (trace w) (sub_id sub));
        [rewrite released_reported|]; exact Hids.
    + eexists. exists (map sub_id subs).
      split; [exact Ht|]. split; [|discriminate].
      simpl. f_equal.
      destruct (remove_throws client (trace w) (sub_id sub)); simpl;
        [|reflexivity].
      rewrite <- (app_nil_r (reported _ _ _)) at 1.
      now rewrite released_reported.
Qed.

Lemma filter_keeps_all (P : nat -> Prop) `{!forall i, Decision (P i)}
    (l : list nat) :
  Forall P l -> filter P l = l.
Proof.
  induction 1 as [|i l Hi _ IH]; [reflexivity|].
  rewrite filter_cons. destruct (decide (P i)); [|contradiction].
  now rewrite IH.
Qed.

Lemma filter_not_in (id : nat) (ids l : list nat) :
  filter (fun i => i ∉ ids) (filter (fun i => i <> id) l) =
    filter (fun i => i ∉ id :: ids) l.
Proof.
  rewrite list_filter_filter. apply list_filter_iff.
  intros i. rewrite not_elem_of_cons. tauto.
Qed.

Lemma cleanup_reliable_run (subscriptions : list (EventSubscription S))
    (w : world S) :
  (forall tr id, remove_throws client tr id = None) ->
  cleanup engine errorHandler client subscriptions w =
    (Normal tt,
     mkWorld (store w)
       (filter (fun i => i ∉ map sub_id subscriptions) (live w))
       (next_id w)
       (trace w ++ map (fun sub => Remove (sub_id sub) None) subscriptions)).
Proof.
  intros Hrem. revert w.
  induction subscriptions as [|sub subs IH]; intros w.
  - simpl. unfold ret. rewrite app_nil_r.
    rewrite filter_keeps_all; [now destruct w|].
    apply Forall_forall. intros i _. apply not_elem_of_nil.
  - rewrite cleanup_cons. unfold try_catch, sub_remove. rewrite Hrem.
    rewrite IH. simpl. rewrite filter_not_in, <- app_assoc. reflexivity.
Qed.

(** X5: over subscriptions whose [remove] does not throw, the teardown
    runs to its end without calling the error callback, drops exactly the
    recorded subscriptions from the client's listeners and leaves the
    store alone. *)
Theorem cleanup_unregisters (subscriptions : list (EventSubscription S))
    (w : world S) :
  (forall tr id, remove_throws client tr id = None) ->
  exists w',
    cleanup engine errorHandler client subscriptions w = (Normal tt, w')
    /\ live w' = filter (fun i => i ∉ map sub_id subscriptions) (live w)
    /\ store w' = store w
    /\ trace w' = trace w ++ map (fun sub => Remove (sub_id sub) None) subscriptions.
Proof.
  intros Hrem. eexists. split; [now apply cleanup_reliable_run|].
  simpl. auto.
Qed.

Lemma filter_drops_all (P : nat -> Prop) `{!forall i, Decision (P i)}
    (l : list nat) :
  Forall (fun i => ~ P i) l -> filter P l = [].
Proof.
  induction 1 as [|i l Hi _ IH]; [reflexivity|].
  rewrite filter_cons. destruct (decide (P i)); [contradiction|exact IH].
Qed.

Lemma fresh_ids_not_live (w0 : world S) (i : nat) :
  wf_world w0 ->
  i ∈ [next_id w0; Datatypes.S (next_id w0); Datatypes.S (Datatypes.S (next_id w0))] ->
  i ∉ live w0.
Proof.
  intros Hwf Hi Hlive.
  unfold wf_world in Hwf. rewrite Forall_forall in Hwf.
  apply Hwf in Hlive.
  rewrite !elem_of_cons in Hi.
  destruct Hi as [-> | [-> | [-> | Hi]]]; [lia|lia|lia|].
  now apply elem_of_nil in Hi.
Qed.

(** X6: an activation takes three ids the client never gave out before,
    one per listener and all different, adds them to the client's
    listeners, sends nothing and leaves the store alone; the ids of a later
    activation differ from all of them. *)
Theorem activation_registers_fresh_listeners (w0 w1 : world S)
    (subscriptions : list (EventSubscription S)) :
  wf_world w0 ->
  subscribe engine storage errorHandler client w0 = (Normal subscriptions, w1) ->
  NoDup (map sub_id subscriptions)
  /\ (forall i, i ∈ map sub_id subscriptions -> i ∉ live w0)
  /\ live w1 = live w0 ++ map sub_id subscriptions
  /\ wf_world w1
  /\ store w1 = store w0
  /\ trace w1 = trace w0
  /\ (forall (w0' w1' : world S) subscriptions',
        next_id w1 <= next_id w0' ->
        subscribe engine storage errorHandler client w0' =
          (Normal subscriptions', w1') ->
        forall i, i ∈ map sub_id subscriptions -> i ∉ map sub_id subscriptions').
Proof.
  intros Hwf. rewrite subscribe_run. intros [= <- <-]. simpl.
  split.
  { repeat constructor; rewrite ?elem_of_cons, ?elem_of_nil; lia. }
  split; [intros i Hi; now apply fresh_ids_not_live|].
  split; [reflexivity|].
  split.
  { unfold wf_world in *. simpl. apply Forall_app. split.
    - eapply Forall_impl; [exact Hwf|]. simpl. intros; lia.
    - repeat constructor; lia. }
  split; [reflexivity|]. split; [reflexivity|].
  intros w0' w1' subs' Hnext. rewrite subscribe_run. intros [= <- <-] i. simpl.
  rewrite !elem_of_cons, !elem_of_nil. lia.
Qed.

Lemma activation_cleanup_run (w0 w1 : world S)
    (subscriptions : list (EventSubscription S)) :
  wf_world w0 ->
  (forall tr id, remove_throws client tr id = None) ->
  subscribe engine storage errorHandler client w0 = (Normal subscriptions, w1) ->
  cleanup engine errorHandler client subscriptions w1 =
    (Normal tt,
     mkWorld (store w0) (live w0) (next_id w1)
       (trace w0 ++ map (fun sub => Remove (sub_id sub) None) subscriptions))
  /\ Forall (fun sub => sub_id sub ∉ live w0) subscriptions.
Proof.
  intros Hwf Hrem Hsub.
  rewrite (cleanup_reliable_run subscriptions w1 Hrem).
  revert Hsub. rewrite subscribe_run. intros [= <- <-]. simpl.
  assert (Hfresh : forall i,
             i ∈ [next_id w0; Datatypes.S (next_id w0);
                  Datatypes.S (Datatypes.S (next_id w0))] -> i ∉ live w0)
    by (intros i Hi; now apply fresh_ids_not_live).
  split.
  - rewrite filter_app, filter_keeps_all, filter_drops_all.
    + now rewrite app_nil_r.
    + apply Forall_forall. intros i Hi Hnot. now apply Hnot.
    + apply Forall_forall. intros i Hi Hin. now apply (Hfresh i Hin).
  - repeat constructor; simpl; apply Hfresh;
      rewrite !elem_of_cons; auto.
Qed.

(** X7: an activation followed by a teardown whose releases do not throw
    leaves the client's listeners and the store exactly as they were
    before the activation; only the three releases show in the trace. *)
Theorem activation_then_cleanup_restores_listeners (w0 w1 : world S)
    (subscriptions : list (EventSubscription S)) :
  wf_world w0 ->
  (forall tr id, remove_throws client tr id = None) ->
  subscribe engine storage errorHandler client w0 = (Normal subscriptions, w1) ->
  exists w2,
    cleanup engine errorHandler client subscriptions w1 = (Normal tt, w2)
    /\ live w2 = live w0
    /\ store w2 = store w0
    /\ trace w2 = trace w0 ++ map (fun sub => Remove (sub_id sub) None) subscriptions
    /\ length subscriptions = 3.
Proof.
  intros Hwf Hrem Hsub.
  destruct (activation_cleanup_run w0 w1 subscriptions Hwf Hrem Hsub) as [Hrun _].
  eexists. split; [exact Hrun|]. simpl.
  repeat (split; [reflexivity|]).
  revert Hsub. rewrite subscribe_run. now intros [= <- <-].
Qed.

Lemma deliver_not_live (subscriptions : list (EventSubscription S))
    (name : string) (p : params) (w : world S) :
  Forall (fun sub => sub_id sub ∉ live w) subscriptions ->
  deliver subscriptions name p w = w.
Proof.
  induction 1 as [|sub subs Hsub _ IH]; [reflexivity|].
  simpl. rewrite (bool_decide_eq_false_2 _ Hsub), andb_false_r. exact IH.
Qed.

(** X8: after such a teardown a message reaches no listener of the
    activation any more, whatever its name: no handler runs and nothing is
    sent. *)
Theorem no_delivery_after_cleanup (w0 w1 : world S)
    (subscriptions : list (EventSubscription S)) (name : string) (p : params) :
  wf_world w0 ->
  (forall tr id, remove_throws client tr id = None) ->
  subscribe engine storage errorHandler client w0 = (Normal subscriptions, w1) ->
  deliver subscriptions name p
    (snd (cleanup engine errorHandler client subscriptions w1)) =
  snd (cleanup engine errorHandler client subscriptions w1).
Proof.
  intros Hwf Hrem Hsub.
  destruct (activation_cleanup_run w0 w1 subscriptions Hwf Hrem Hsub)
    as [Hrun Hfresh].
  rewrite Hrun. simpl. now apply deliver_not_live.
Qed.

(** X9: over a client whose sends do not throw, a message under one of
    the three registered names runs that name's handler once.  When the
    handler resolves, its result is never nullish and the one thing sent
    is the acknowledgement on [ack:<name>] with that result.  The one way
    a handler fails is [storage.set] throwing in the [set] handler: then no
    acknowledgement is sent, the failure goes out on [error] and to the
    error callback. *)
Theorem registered_message_acknowledged (w0 w1 : world S)
    (subscriptions : list (EventSubscription S)) (p : params) (w : world S)
    (name : string) (handler : params -> M S JsValue) :
  subscribe engine storage errorHandler client w0 = (Normal subscriptions, w1) ->
  Forall (fun sub => sub_id sub ∈ live w) subscriptions ->
  (forall tr method payload, sendMessage_throws client tr method payload = None) ->
  (name, handler) ∈ [("getAll", getAll_listener engine storage);
                     ("set", set_listener storage);
                     ("remove", remove_listener storage)] ->
  match handler p w with
  | (Normal result, w') =>
      nullish result (VBool true) = result
      /\ deliver subscriptions name p w =
           log (SendMessage ("ack:" +:+ name) (ack_payload result) None) w'
  | (Throw failure, w') =>
      name = "set"
      /\ (exists k v, key p = Some k /\ value p = Some v
                      /\ fst (set storage (store w) k v) = Throw failure)
      /\ trace (deliver subscriptions name p w) =
           trace w' ++ SendMessage "error" (error_payload engine failure) None
                    :: reported engine errorHandler failure
  end.
Proof.
  intros Hsub Hlive Hsend Hin.
  destruct (deliver_registered engine storage errorHandler client
              w0 w1 subscriptions p w Hsub Hlive) as (Hg & Hs & Hr).
  rewrite !elem_of_cons, elem_of_nil in Hin.
  destruct Hin as [[= -> ->] | [[= -> ->] | [[= -> ->] | []]]].
  - change (getAll_listener engine storage p w)
      with (Normal (VArray (map (getAll_entry engine storage (store w))
                              match getAllKeys storage (store w) with
                              | Some keys => keys
                              | None => []
                              end)), w).
    split; [reflexivity|].
    rewrite Hg.
    rewrite (message_listener_resolved _ _ _ _ _ _ _ _ _ eq_refl). simpl.
    now rewrite Hsend.
  - rewrite Hs. pose proof (set_listener_run storage p w) as Hrun.
    destruct (set_listener storage p w) as [[result|failure] w'] eqn:Hl.
    + rewrite (message_listener_resolved _ _ _ _ _ _ _ _ _ Hl). simpl.
      rewrite Hsend.
      destruct (key p) as [k|], (value p) as [v|];
        try (injection Hrun as -> ->; split; reflexivity).
      destruct (fst (set storage (store w) k v)); [|discriminate].
      injection Hrun as -> ->. split; reflexivity.
    + rewrite (message_listener_rejected _ _ _ _ _ _ _ _ _ Hl).
      rewrite catch_block_trace, Hsend.
      split; [reflexivity|]. split; [|reflexivity].
      destruct (key p) as [k|], (value p) as [v|]; try discriminate.
      exists k, v. repeat (split; [reflexivity|]).
      destruct (fst (set storage (store w) k v)); [discriminate|].
      now injection Hrun as -> _.
  - rewrite Hr. pose proof (remove_listener_run storage p w) as Hrun.
    destruct (key p) as [k|]; rewrite Hrun; (split; [reflexivity|]);
      rewrite (message_listener_resolved _ _ _ _ _ _ _ _ _ Hrun); simpl;
      now rewrite Hsend.
Qed.
End Lifecycle.

Section TypedStore.
Variable engine : Engine.
Variable empty_key_error : JsValue.

Lemma typed_entry (m : gmap string entry) (k : string) (x : entry) :
  m !! k = Some x ->
  getAll_entry engine (typed_store empty_key_error) m k = row k (render engine x).
Proof.
  intros Hk. unfold getAll_entry. simpl.
  unfold typed_getString, typed_getNumber, typed_getBoolean. rewrite Hk.
  destruct x as [s|n|b]; simpl; [reflexivity| |reflexivity].
  now destruct (Number_isNaN n).
Qed.

Lemma typed_keys (m : gmap string entry) (k : string) :
  k ∈ map fst (map_to_list m) <-> exists x, m !! k = Some x.
Proof.
  rewrite list_elem_of_In, in_map_iff. split.
  - intros ([k' x] & <- & Hin). exists x.
    now apply elem_of_map_to_list, list_elem_of_In.
  - intros [x Hk]. exists (k, x). split; [reflexivity|].
    now apply list_elem_of_In, elem_of_map_to_list.
Qed.

Lemma typed_rows (m : gmap string entry) (k : string) (v : JsValue) :
  row k v ∈ map (getAll_entry engine (typed_store empty_key_error) m) (map fst (map_to_list m))
  <-> exists x, m !! k = Some x /\ v = render engine x.
Proof.
  rewrite list_elem_of_In, in_map_iff. split.
  - intros (k' & Hrow & Hin).
    apply list_elem_of_In, typed_keys in Hin as [x Hk'].
    rewrite (typed_entry _ _ _ Hk') in Hrow.
    injection Hrow as -> <-. now exists x.
  - intros (x & Hk & ->). exists k. split.
    + now apply typed_entry.
    + apply list_elem_of_In, typed_keys. now exists x.
Qed.

(** X10: over the typed store the list is the store, no more and no less:
    a row [[k, v]] is listed exactly when the store holds [k] and [v] is
    the entry as a string ([undefined] for a stored [NaN]), and there are
    as many rows as the store has keys. *)
Theorem list_shows_the_typed_store (p : params) (w : world (gmap string entry)) :
  exists rows,
    getAll_listener engine (typed_store empty_key_error) p w =
      (Normal (VArray rows), w)
    /\ (forall k v,
          row k v ∈ rows <-> exists x, store w !! k = Some x /\ v = render engine x)
    /\ length rows = size (store w).
Proof.
  eexists. split; [reflexivity|]. split.
  - intros k v. apply typed_rows.
  - rewrite length_map. simpl. rewrite length_map. apply length_map_to_list.
Qed.

(** X11: a write the store accepts shows in the next list: under a key
    that is not empty, the written key is listed with the written string
    and with nothing else, and every other key is listed as before the
    write.  A write under the empty key the store refuses: the handler
    rejects, and the next list is the list as it was. *)
Theorem write_then_list (p q : params) (w : world (gmap string entry))
    (k v : string) :
  key p = Some k -> value p = Some v ->
  (k <> "" ->
   exists rows,
     getAll_listener engine (typed_store empty_key_error) q
       (snd (set_listener (typed_store empty_key_error) p w)) =
       (Normal (VArray rows), snd (set_listener (typed_store empty_key_error) p w))
     /\ row k (VString v) ∈ rows
     /\ (forall v', row k v' ∈ rows -> v' = VString v)
     /\ (forall k' v', k' <> k ->
           (row k' v' ∈ rows <->
            exists x, store w !! k' = Some x /\ v' = render engine x)))
  /\ (k = "" ->
      fst (set_listener (typed_store empty_key_error) p w) = Throw empty_key_error
      /\ fst (getAll_listener engine (typed_store empty_key_error) q
                (snd (set_listener (typed_store empty_key_error) p w))) =
           fst (getAll_listener engine (typed_store empty_key_error) q w)).
Proof.
  intros Hk Hv. rewrite set_listener_run, Hk, Hv. simpl. unfold typed_set.
  split.
  - intros Hne. apply String.eqb_neq in Hne. rewrite Hne. simpl.
    eexists. split; [reflexivity|].
    split; [|split].
    + apply typed_rows. exists (EString v).
      split; [apply lookup_insert_eq|reflexivity].
    + intros v' Hin. apply typed_rows in Hin as (x & Hx & ->). simpl in Hx.
      rewrite lookup_insert_eq in Hx. now injection Hx as <-.
    + intros k' v' Hne'. rewrite typed_rows. simpl.
      now rewrite lookup_insert_ne by (intros ->; contradiction).
  - intros ->. simpl. split; reflexivity.
Qed.

(** X12: a delete shows in the next list: the deleted key is not listed
    any more, and every other key is listed as before the delete. *)
Theorem delete_then_list (p q : params) (w : world (gmap string entry))
    (k : string) :
  key p = Some k ->
  exists rows,
    getAll_listener engine (typed_store empty_key_error) q
      (snd (remove_listener (typed_store empty_key_error) p w)) =
      (Normal (VArray rows), snd (remove_listener (typed_store empty_key_error) p w))
    /\ (forall v, row k v ∉ rows)
    /\ (forall k' v', k' <> k ->
          (row k' v' ∈ rows <->
           exists x, store w !! k' = Some x /\ v' = render engine x)).
Proof.
  intros Hk. rewrite remove_listener_run, Hk. simpl.
  eexists. split; [reflexivity|].
  split.
  - intros v Hin. apply typed_rows in Hin as (x & Hx & _). simpl in Hx.
    now rewrite lookup_delete_eq in Hx.
  - intros k' v' Hne. rewrite typed_rows. simpl.
    now rewrite lookup_delete_ne by (intros ->; contradiction).
Qed.

(** X13: over a store object without [getNumber] and [getBoolean] the
    optional calls find nothing to call: the handler still resolves, a
    key is listed with its string, and with [undefined] when it has none. *)
Theorem list_without_optional_readers {S : Type} (storage : MMKV S)
    (p : params) (w : world S) :
  getNumber storage = None -> getBoolean storage = None ->
  getAll_listener engine storage p w =
    (Normal
       (VArray
          (map (fun key => row key match getString storage (store w) key with
                                   | Some s => VString s
                                   | None => VUndefined
                                   end)
             match getAllKeys storage (store w) with
             | Some keys => keys
             | None => []
             end)),
     w).
Proof.
  intros Hn Hb. unfold getAll_listener. do 3 f_equal.
  apply map_ext. intros k. unfold getAll_entry. rewrite Hn, Hb. simpl.
  now destruct (getString storage (store w) k).
Qed.
End TypedStore.

(** ** The memoized store *)

Lemma renders_cons (storageProp : option instance)
    (rest : list (option instance)) (h : memo) :
  renders (storageProp :: rest) h =
    (fst (useMemo_storage storageProp h)
       :: fst (renders rest (snd (useMemo_storage storageProp h))),
     snd (renders rest (snd (useMemo_storage storageProp h)))).
Proof.
  simpl. destruct (useMemo_storage storageProp h) as [s h1]. simpl.
  now destruct (renders rest h1).
Qed.

Lemma useMemo_storage_ok (storageProp : option instance) (h : memo) :
  cell_ok h -> cell_ok (snd (useMemo_storage storageProp h)).
Proof.
  intros Hok. unfold useMemo_storage.
  destruct (cell h) as [[deps v]|] eqn:Hc.
  - destruct (decide (deps = storageProp)); [exact Hok|].
    destruct storageProp; exact I || reflexivity.
  - destruct storageProp; exact I || reflexivity.
Qed.

Lemma useMemo_storage_supplied (s : instance) (h : memo) :
  cell_ok h ->
  fst (useMemo_storage (Some s) h) = s
  /\ created (snd (useMemo_storage (Some s) h)) = created h.
Proof.
  intros Hok. unfold useMemo_storage, cell_ok in *.
  destruct (cell h) as [[deps v]|]; [|split; reflexivity].
  destruct (decide (deps = Some s)) as [->|]; simpl; auto.
Qed.

Lemma renders_supplied (props : list instance) (h : memo) :
  cell_ok h ->
  fst (renders (map Some props) h) = props
  /\ created (snd (renders (map Some props) h)) = created h.
Proof.
  revert h. induction props as [|s props IH]; intros h Hok; [split; reflexivity|].
  simpl.
  destruct (useMemo_storage_supplied s h Hok) as [Hs Hc].
  pose proof (useMemo_storage_ok (Some s) h Hok) as Hok1.
  destruct (useMemo_storage (Some s) h) as [s1 h1]. simpl in *.
  destruct (IH h1 Hok1) as [Hss Hcc].
  destruct (renders (map Some props) h1) as [ss h2]. simpl in *.
  split; congruence.
Qed.

Lemma renders_ok (props : list (option instance)) (h : memo) :
  cell_ok h -> cell_ok (snd (renders props h)).
Proof.
  revert h. induction props as [|storageProp rest IH]; intros h Hok; [exact Hok|].
  rewrite renders_cons. simpl. apply IH. now apply useMemo_storage_ok.
Qed.

(** X14: a render that is given a [storage] works on that very instance
    and does not call [createMMKV], whatever the renders before it were
    given; and while every render is given one, none is ever created. *)
Theorem supplied_storage_is_used (before : list (option instance))
    (s : instance) (props : list instance) :
  fst (useMemo_storage (Some s) (snd (renders before first_render))) = s
  /\ created (snd (useMemo_storage (Some s) (snd (renders before first_render)))) =
       created (snd (renders before first_render))
  /\ fst (renders (map Some props) first_render) = props
  /\ created (snd (renders (map Some props) first_render)) = 0.
Proof.
  assert (Hok : cell_ok (snd (renders before first_render)))
    by (apply renders_ok; exact I).
  destruct (useMemo_storage_supplied s _ Hok) as [Hs Hc].
  destruct (renders_supplied props first_render I) as [Hp Hn].
  auto.
Qed.

Lemma renders_kept (n : nat) (h : memo) (v : instance) :
  cell h = Some (None, v) ->
  renders (replicate n None) h = (replicate n v, h).
Proof.
  intros Hc. induction n as [|n IH]; [reflexivity|].
  simpl. unfold useMemo_storage at 1. rewrite Hc.
  destruct (decide (None = None)) as [_|Hne]; [|contradiction].
  now rewrite IH.
Qed.

(** X15: while no render is given a [storage], the first render calls
    [createMMKV] and every later one works on that same instance: however
    many renders, one instance is created. *)
Theorem default_storage_created_once (n : nat) :
  fst (renders (replicate (Datatypes.S n) None) first_render) =
    replicate (Datatypes.S n) (Created 0)
  /\ created (snd (renders (replicate (Datatypes.S n) None) first_render)) = 1.
Proof.
  change (replicate (Datatypes.S n) (@None instance))
    with (None :: replicate n (@None instance)).
  rewrite renders_cons.
  change (useMemo_storage None first_render)
    with (Created 0, {| cell := Some (None, Created 0); created := 1 |}).
  cbn [fst snd].
  rewrite (renders_kept n _ (Created 0)) by reflexivity.
  split; reflexivity.
Qed.

(** ** The further theorems at work *)

Lemma message_listener_never_rejects_witness :
  (forall tr method payload,
      sendMessage_throws reliable_client tr method payload = None)
  /\ (forall f, Some quiet_errorHandler = Some f -> forall err, f err = None)
  /\ fst (message_listener test_engine (Some quiet_errorHandler) reliable_client
            "set" (failing_listener (VString "boom")) write_a_1
            (initial_world empty_store)) = Normal tt.
Proof.
  assert (Hsend : forall tr method payload,
             sendMessage_throws reliable_client tr method payload = None)
    by reflexivity.
  assert (Hquiet : forall f, Some quiet_errorHandler = Some f ->
                             forall err, f err = None)
    by (intros f [= <-] err; reflexivity).
  split; [exact Hsend|]. split; [exact Hquiet|].
  exact (@message_listener_never_rejects _ test_engine (Some quiet_errorHandler)
           reliable_client "set" (failing_listener (VString "boom")) write_a_1
           (initial_world empty_store) Hsend Hquiet).
Defined.

(** The handler throws ["boom"], the send on [error] throws: the promise
    rejects with the send's exception. *)
Lemma failed_request_completion_witness :
  failing_listener (VString "boom") write_a_1 (initial_world empty_store) =
    (Throw (VString "boom"), initial_world empty_store)
  /\ fst (message_listener test_engine (Some quiet_errorHandler) faulty_client
            "set" (failing_listener (VString "boom")) write_a_1
            (initial_world empty_store)) = Throw (VString "socket closed").
Proof.
  split; [reflexivity|].
  exact (@failed_request_completion _ test_engine (Some quiet_errorHandler)
           faulty_client "set" (failing_listener (VString "boom")) write_a_1
           (initial_world empty_store) (initial_world empty_store)
           (VString "boom") eq_refl).
Defined.

Lemma cleanup_unregisters_witness :
  (forall tr id, remove_throws reliable_client tr id = None)
  /\ exists w',
       cleanup test_engine None reliable_client
         (fst (activation None reliable_client))
         (snd (activation None reliable_client)) = (Normal tt, w')
       /\ live w' = []
       /\ trace w' = [Remove 0 None; Remove 1 None; Remove 2 None].
Proof.
  assert (Hrem : forall tr id, remove_throws reliable_client tr id = None)
    by reflexivity.
  split; [exact Hrem|].
  destruct (@cleanup_unregisters _ test_engine None reliable_client
              (fst (activation None reliable_client))
              (snd (activation None reliable_client)) Hrem)
    as (w' & Hrun & Hlive & _ & Htrace).
  exists w'. split; [exact Hrun|]. split; [exact Hlive|exact Htrace].
Defined.

Lemma activation_registers_fresh_listeners_witness :
  wf_world (initial_world empty_store)
  /\ subscribe test_engine test_store None reliable_client
       (initial_world empty_store) =
     (Normal (fst (activation None reliable_client)),
      snd (activation None reliable_client))
  /\ NoDup (map sub_id (fst (activation None reliable_client)))
  /\ live (snd (activation None reliable_client)) = [0; 1; 2].
Proof.
  assert (Hwf : wf_world (initial_world empty_store)) by constructor.
  split; [exact Hwf|]. split; [reflexivity|].
  destruct (@activation_registers_fresh_listeners _ test_engine test_store None
              reliable_client (initial_world empty_store)
              (snd (activation None reliable_client))
              (fst (activation None reliable_client)) Hwf eq_refl)
    as (Hnodup & _ & Hlive & _).
  split; [exact Hnodup|exact Hlive].
Defined.

Lemma activation_then_cleanup_restores_listeners_witness :
  wf_world (initial_world empty_store)
  /\ (forall tr id, remove_throws reliable_client tr id = None)
  /\ exists w2,
       cleanup test_engine None reliable_client
         (fst (activation None reliable_client))
         (snd (activation None reliable_client)) = (Normal tt, w2)
       /\ live w2 = live (initial_world empty_store)
       /\ store w2 = empty_store.
Proof.
  assert (Hwf : wf_world (initial_world empty_store)) by constructor.
  assert (Hrem : forall tr id, remove_throws reliable_client tr id = None)
    by reflexivity.
  split; [exact Hwf|]. split; [exact Hrem|].
  destruct (@activation_then_cleanup_restores_listeners _ test_engine test_store
              None reliable_client (initial_world empty_store)
              (snd (activation None reliable_client))
              (fst (activation None reliable_client)) Hwf Hrem eq_refl)
    as (w2 & Hrun & Hlive & Hstore & _).
  exists w2. split; [exact Hrun|]. split; [exact Hlive|exact Hstore].
Defined.

Lemma no_delivery_after_cleanup_witness :
  wf_world (initial_world empty_store)
  /\ (forall tr id, remove_throws reliable_client tr id = None)
  /\ deliver (fst (activation None reliable_client)) "set" write_a_1
       (snd (cleanup test_engine None reliable_client
               (fst (activation None reliable_client))
               (snd (activation None reliable_client)))) =
     snd (cleanup test_engine None reliable_client
            (fst (activation None reliable_client))
            (snd (activation None reliable_client))).
Proof.
  assert (Hwf : wf_world (initial_world empty_store)) by constructor.
  assert (Hrem : forall tr id, remove_throws reliable_client tr id = None)
    by reflexivity.
  split; [exact Hwf|]. split; [exact Hrem|].
  exact (@no_delivery_after_cleanup _ test_engine test_store None
           reliable_client (initial_world empty_store)
           (snd (activation None reliable_client))
           (fst (activation None reliable_client)) "set" write_a_1
           Hwf Hrem eq_refl).
Defined.

Lemma registered_message_acknowledged_witness :
  Forall (fun sub => sub_id sub ∈ live (snd (activation None reliable_client)))
    (fst (activation None reliable_client))
  /\ (forall tr method payload,
        sendMessage_throws reliable_client tr method payload = None)
  /\ deliver (fst (activation None reliable_client)) "set" write_a_1
       (snd (activation None reliable_client)) =
     log (SendMessage "ack:set" (ack_payload (VBool true)) None)
       (snd (set_listener test_store write_a_1
               (snd (activation None reliable_client)))).
Proof.
  assert (Hlive : Forall
            (fun sub => sub_id sub ∈ live (snd (activation None reliable_client)))
            (fst (activation None reliable_client))).
  { repeat constructor; simpl; rewrite !elem_of_cons; auto. }
  assert (Hsend : forall tr method payload,
             sendMessage_throws reliable_client tr method payload = None)
    by reflexivity.
  assert (Hin : ("set", set_listener test_store)
                ∈ [("getAll", getAll_listener test_engine test_store);
                   ("set", set_listener test_store);
                   ("remove", remove_listener test_store)]).
  { rewrite !elem_of_cons. right. left. reflexivity. }
  split; [exact Hlive|]. split; [exact Hsend|].
  exact (proj2 (@registered_message_acknowledged _ test_engine test_store None
                  reliable_client (initial_world empty_store)
                  (snd (activation None reliable_client))
                  (fst (activation None reliable_client)) write_a_1
                  (snd (activation None reliable_client)) "set"
                  (set_listener test_store) eq_refl Hlive Hsend Hin)).
Defined.

(** The same message with the empty key: the store refuses the write, and
    the request is answered on [error], not acknowledged. *)
Example empty_key_write_answered_on_error :
  deliver (fst (activation None reliable_client)) "set" write_empty_key
    (snd (activation None reliable_client)) =
  log (SendMessage "error"
         (VObject [("message", VString "empty key"); ("stack", VUndefined)]) None)
    (snd (activation None reliable_client)).
Proof. reflexivity. Qed.

Lemma write_then_list_witness :
  key overwrite_answer = Some "answer"
  /\ value overwrite_answer = Some "1"
  /\ "answer" <> ""
  /\ exists rows,
       getAll_listener test_engine test_store no_params
         (snd (set_listener test_store overwrite_answer
                 (initial_world typed_values))) =
         (Normal (VArray rows),
          snd (set_listener test_store overwrite_answer
                 (initial_world typed_values)))
       /\ row "answer" (VString "1") ∈ rows.
Proof.
  assert (Hne : "answer" <> "") by discriminate.
  split; [reflexivity|]. split; [reflexivity|]. split; [exact Hne|].
  destruct (proj1 (write_then_list test_engine empty_key_refused overwrite_answer
                     no_params (initial_world typed_values) "answer" "1"
                     eq_refl eq_refl) Hne)
    as (rows & Hrun & Hin & _).
  exists rows. split; [exact Hrun|exact Hin].
Defined.

Lemma delete_then_list_witness :
  key {| key := Some "answer"; value := None |} = Some "answer"
  /\ exists rows,
       getAll_listener test_engine test_store no_params
         (snd (remove_listener test_store {| key := Some "answer"; value := None |}
                 (initial_world typed_values))) =
         (Normal (VArray rows),
          snd (remove_listener test_store {| key := Some "answer"; value := None |}
                 (initial_world typed_values)))
       /\ row "answer" (VString "42") ∉ rows.
Proof.
  split; [reflexivity|].
  destruct (delete_then_list test_engine empty_key_refused
              {| key := Some "answer"; value := None |} no_params
              (initial_world typed_values) "answer" eq_refl)
    as (rows & Hrun & Hout & _).
  exists rows. split; [exact Hrun|apply Hout].
Defined.

Lemma list_without_optional_readers_witness :
  getNumber strings_only_store = None
  /\ getBoolean strings_only_store = None
  /\ getAll_listener test_engine strings_only_store no_params
       (initial_world (<["a" := "1"]> ∅)) =
     (Normal (VArray [row "a" (VString "1")]), initial_world (<["a" := "1"]> ∅)).
Proof.
  split; [reflexivity|]. split; [reflexivity|].
  exact (list_without_optional_readers test_engine strings_only_store no_params
           (initial_world (<["a" := "1"]> ∅)) eq_refl eq_refl).
Defined.
